(** * rotary_i2c: a driver for an I2C rotary encoder

    A shallow embedding of [rotary_i2c.py] (class [RotaryI2C]) and the
    properties of its transaction protocol and of its bounded, wrapping
    position counter.

    Python integers are unbounded, so [value], [min_val], [max_val] and the
    device number are [Z].  A [bytearray] is a [list byte].  The methods
    mutate [self] and talk to the bus, and an exception leaves every
    mutation done so far in place: they are computations in a state monad
    with errors whose state survives a failure. *)

From Stdlib Require Import ZArith List String Lia Bool.
From Stdlib Require Import Init.Byte.
Import ListNotations.

Local Open Scope Z_scope.

(** ** Exceptions *)

Inductive exn : Type :=
| Exception (msg : string)      (* [raise Exception(msg)] of the driver *)
| OSError (errno : Z)           (* raised by the transport: NACK, timeout *)
| ValueError (msg : string)     (* [unpack] on a buffer of the wrong size *)
| IndexError (msg : string).    (* [reply[0]] on an empty buffer *)

Definition result (A : Type) : Type := (exn + A)%type.

(** ** What happens outside the driver

    Every call into the transport and every delay is recorded, oldest
    first. *)

Inductive Event : Type :=
| EvScan
| EvWrite (addr : Z) (data : list byte)
| EvSleep (ms : Z)
| EvRead (addr : Z) (count : nat).

Definition Trace : Type := list Event.

(** The bus and the peripherals on it: what each transport primitive
    answers, given everything that has happened so far. *)
Record Bus : Type := {
  bus_scan : Trace -> result (list Z);
  bus_writeto : Trace -> Z -> list byte -> result Z;
  bus_readfrom : Trace -> Z -> nat -> result (list byte)
}.

(** ** The driver object *)

(** [PimoroniI2C(sda, scl, freq)]: the transport handle. *)
Record PimoroniI2C : Type := {
  i2c_sda : Z;
  i2c_scl : Z;
  i2c_baudrate : Z
}.

Record RotaryI2C : Type := {
  pin_num_sda : Z;
  pin_num_scl : Z;
  freq : Z;
  min_val : Z;
  max_val : Z;
  value : Z;
  i2c : PimoroniI2C;
  devno : Z
}.

Definition set_value (v : Z) (s : RotaryI2C) : RotaryI2C :=
  {| pin_num_sda := pin_num_sda s; pin_num_scl := pin_num_scl s;
     freq := freq s; min_val := min_val s; max_val := max_val s;
     value := v; i2c := i2c s; devno := devno s |}.

Definition set_devno (d : Z) (s : RotaryI2C) : RotaryI2C :=
  {| pin_num_sda := pin_num_sda s; pin_num_scl := pin_num_scl s;
     freq := freq s; min_val := min_val s; max_val := max_val s;
     value := value s; i2c := i2c s; devno := d |}.

(** The driver together with the record of what it did to the world. *)
Record Machine : Type := {
  self : RotaryI2C;
  trace : Trace
}.

Definition with_self (s : RotaryI2C) (m : Machine) : Machine :=
  {| self := s; trace := trace m |}.

Definition record (e : Event) (m : Machine) : Machine :=
  {| self := self m; trace := trace m ++ [e] |}.

(** ** The monad of methods *)

Definition M (A : Type) : Type := Machine -> result A * Machine.

Definition ret {A} (a : A) : M A := fun m => (inr a, m).

Definition raise {A} (e : exn) : M A := fun m => (inl e, m).

Definition bind {A B} (c : M A) (k : A -> M B) : M B :=
  fun m =>
    match c m with
    | (inl e, m') => (inl e, m')
    | (inr a, m') => k a m'
    end.

Definition get_self : M RotaryI2C := fun m => (inr (self m), m).

Definition put_self (s : RotaryI2C) : M unit := fun m => (inr tt, with_self s m).

Definition lift {A} (r : result A) : M A := fun m => (r, m).

Declare Scope method_scope.
Delimit Scope method_scope with method.
Notation "x <- c ;; k" := (bind c (fun x => k))
  (at level 61, c at next level, right associativity) : method_scope.
Notation "c ;;; k" := (bind c (fun _ => k))
  (at level 61, right associativity) : method_scope.
Local Open Scope method_scope.

(** ** Library functions the driver calls *)

(** [bytearray(n)]: [n] zero bytes. *)
Definition bytearray (n : nat) : list byte := repeat x00 n.

(** A read into a caller's buffer overwrites it from the front and never
    changes its size. *)
Fixpoint fill (buf data : list byte) : list byte :=
  match buf with
  | [] => []
  | b :: buf' =>
      match data with
      | [] => b :: buf'
      | d :: data' => d :: fill buf' data'
      end
  end.

Definition byte_val (b : byte) : Z := Z.of_N (Byte.to_N b).

(** [unpack(">l", buf)[0]]: four bytes, most significant first, as a signed
    integer.  The accumulator starts as the sign extension of the first
    byte and takes in one byte at a time. *)
Definition sign_of (b : byte) : Z := if Z.testbit (byte_val b) 7 then -1 else 0.

Definition take_in (acc : Z) (b : byte) : Z := Z.lor (Z.shiftl acc 8) (byte_val b).

Definition unpack_be_l (buf : list byte) : result Z :=
  match buf with
  | [b0; b1; b2; b3] => inr (fold_left take_in [b0; b1; b2; b3] (sign_of b0))
  | _ => inl (ValueError "buffer size must match format")
  end.

(** ** Constants *)

Definition CMD_READ_VAL_POS : byte := x11.
Definition CMD_READ_BUTTONS : byte := x01.
Definition CMD_READ_NUMBER : byte := x04.
Definition VAL_POSITION : byte := x30.
Definition VAL_DELTA : byte := x40.

Definition no_device_msg : string :=
  "ERROR [rotary_i2c.i2c_write()] : No target device number has been set - I don't know where to send it!".

(** ** The class *)

Section Driver.

Variable bus : Bus.

(** *** Transport primitives and the clock *)

Definition i2c_scan : M (list Z) :=
  fun m => (bus_scan bus (trace m), record EvScan m).

Definition writeto (addr : Z) (buf : list byte) : M Z :=
  fun m => (bus_writeto bus (trace m) addr buf, record (EvWrite addr buf) m).

Definition readfrom_into (addr : Z) (buf : list byte) : M (list byte) :=
  fun m =>
    (match bus_readfrom bus (trace m) addr (List.length buf) with
     | inl e => inl e
     | inr data => inr (fill buf data)
     end,
     record (EvRead addr (List.length buf)) m).

Definition sleep_ms (ms : Z) : M unit := fun m => (inr tt, record (EvSleep ms) m).

(** *** Methods *)

Definition init (sda scl fr mn mx dev : Z) : Machine :=
  {| self := {| pin_num_sda := sda; pin_num_scl := scl; freq := fr;
                min_val := mn; max_val := mx; value := mn;
                i2c := {| i2c_sda := sda; i2c_scl := scl; i2c_baudrate := fr |};
                devno := dev |};
     trace := [] |}.

Definition scan : M (list Z) := i2c_scan.

Definition set_device (d : Z) : M unit :=
  s <- get_self ;; put_self (set_devno d s).

Definition i2c_write (cdata : list byte) : M Z :=
  s <- get_self ;;
  if devno s =? 0 then raise (Exception no_device_msg)
  else
    let clen := List.length cdata in
    nsent <- writeto (devno s) cdata ;;
    ret nsent.

Definition i2c_read (cdata : list byte) (dsize : nat) : M (list byte) :=
  i2c_write cdata ;;;
  sleep_ms 8 ;;;
  let reply := bytearray dsize in
  s <- get_self ;;
  reply <- readfrom_into (devno s) reply ;;
  ret reply.

Definition position : M Z :=
  let cdata := [CMD_READ_VAL_POS; VAL_DELTA] in
  reply <- i2c_read cdata 4 ;;
  delta <- lift (unpack_be_l reply) ;;
  s <- get_self ;;
  put_self (set_value (value s - delta) s) ;;;
  s <- get_self ;;
  (if value s <? min_val s then put_self (set_value (max_val s) s)
   else if value s >? max_val s then put_self (set_value (min_val s) s)
   else ret tt) ;;;
  s <- get_self ;;
  ret (value s).

Definition button : M bool :=
  let rv := false in
  let cdata := [CMD_READ_BUTTONS; CMD_READ_NUMBER] in
  reply <- i2c_read cdata 4 ;;
  match reply with
  | [] => raise (IndexError "bytearray index out of range")
  | byte0 :: _ =>
      if Z.land (byte_val byte0) 1 =? 0 then ret true else ret rv
  end.

End Driver.

(** ** A simulated transport

    Every write is acknowledged in full and the [k]-th read on the bus is
    answered with the [k]-th scripted reply. *)

Fixpoint count_reads (t : Trace) : nat :=
  match t with
  | [] => O
  | EvRead _ _ :: t' => S (count_reads t')
  | _ :: t' => count_reads t'
  end.

Definition scripted (replies : list (list byte)) : Bus :=
  {| bus_scan := fun _ => inr [];
     bus_writeto := fun _ _ data => inr (Z.of_nat (List.length data));
     bus_readfrom := fun t _ _ => inr (nth (count_reads t) replies []) |}.

(** ** Vocabulary of the statements *)

(** The peripheral addressed by the driver acknowledges [cdata] and, after
    the delay, answers with exactly the bytes [reply]. *)
Definition answers (bus : Bus) (m : Machine) (cdata reply : list byte) : Prop :=
  devno (self m) <> 0 /\
  (exists nsent, bus_writeto bus (trace m) (devno (self m)) cdata = inr nsent) /\
  bus_readfrom bus (trace m ++ [EvWrite (devno (self m)) cdata; EvSleep 8])
               (devno (self m)) (List.length reply) = inr reply.

(** The events of one complete transaction. *)
Definition transaction (addr : Z) (cdata : list byte) (dsize : nat) : Trace :=
  [EvWrite addr cdata; EvSleep 8; EvRead addr dsize].

(** The unsigned value of four bytes, most significant first. *)
Definition be_u32 (b0 b1 b2 b3 : byte) : Z :=
  byte_val b0 * 2 ^ 24 + byte_val b1 * 2 ^ 16 + byte_val b2 * 2 ^ 8 + byte_val b3.

(** The counter after one step: the jump to the opposite bound. *)
Definition wrapped (v mn mx : Z) : Z :=
  if v <? mn then mx else if v >? mx then mn else v.

(** The value a result has, when there is one. *)
Definition returned {A} (r : result A * Machine) (a : A) : Prop := fst r = inr a.

Definition stored (r : result Z * Machine) : Z := value (self (snd r)).

(** ** Concrete set-ups

    The encoder of the module's documentation (pins 16 and 17, 400 kHz) with
    chosen bounds, counter and device number, before any bus traffic. *)
Definition encoder (mn mx v dev : Z) : Machine :=
  {| self := set_value v (self (init 16 17 400000 mn mx dev)); trace := [] |}.

(** Bytes that decode to small deltas. *)
Definition reply_0 : list byte := [x00; x00; x00; x00].
Definition reply_5 : list byte := [x00; x00; x00; x05].
Definition reply_8 : list byte := [x00; x00; x00; x08].
Definition reply_minus_2 : list byte := [xff; xff; xff; xfe].
Definition reply_minus_20 : list byte := [xff; xff; xff; xec].

(** ** Sessions

    What a caller can do to a driver through its methods, one call after
    the other; an exception raised by a call is caught and the session goes
    on with the driver as the call left it. *)
Inductive Call : Type :=
| CallScan
| CallSetDevice (d : Z)
| CallWrite (cdata : list byte)
| CallRead (cdata : list byte) (dsize : nat)
| CallPosition
| CallButton.

Definition call (bus : Bus) (c : Call) (m : Machine) : Machine :=
  match c with
  | CallScan => snd (scan bus m)
  | CallSetDevice d => snd (set_device d m)
  | CallWrite cdata => snd (i2c_write bus cdata m)
  | CallRead cdata dsize => snd (i2c_read bus cdata dsize m)
  | CallPosition => snd (position bus m)
  | CallButton => snd (button bus m)
  end.

Definition session (bus : Bus) (cs : list Call) (m : Machine) : Machine :=
  fold_left (fun m' c => call bus c m') cs m.

(** The counter is inside the bounds. *)
Definition in_bounds (s : RotaryI2C) : Prop := min_val s <= value s <= max_val s.

(** Everything but the counter and the device number is as it was. *)
Definition keeps_setup (s s' : RotaryI2C) : Prop :=
  min_val s' = min_val s /\ max_val s' = max_val s /\
  pin_num_sda s' = pin_num_sda s /\ pin_num_scl s' = pin_num_scl s /\
  freq s' = freq s /\ i2c s' = i2c s.

(** The device an event is addressed to, if any. *)
Definition addressee (e : Event) : option Z :=
  match e with
  | EvWrite a _ => Some a
  | EvRead a _ => Some a
  | EvScan => None
  | EvSleep _ => None
  end.

(** Bus traffic made only of scans, lone writes and whole transactions
    (write, 8 ms, read, to one device), never to device number 0. *)
Inductive Protocol : Trace -> Prop :=
| Protocol_nil : Protocol []
| Protocol_scan (t : Trace) : Protocol t -> Protocol (t ++ [EvScan])
| Protocol_write (t : Trace) (a : Z) (cdata : list byte) :
    a <> 0 -> Protocol t -> Protocol (t ++ [EvWrite a cdata])
| Protocol_transaction (t : Trace) (a : Z) (cdata : list byte) (dsize : nat) :
    a <> 0 -> Protocol t -> Protocol (t ++ transaction a cdata dsize).

(** ** Transports that fail *)

(** No device acknowledges: every write and every read raises [EIO]. *)
Definition nack_bus : Bus :=
  {| bus_scan := fun _ => inr [];
     bus_writeto := fun _ _ _ => inl (OSError 5);
     bus_readfrom := fun _ _ _ => inl (OSError 5) |}.

(** A device that takes one byte of every write and never answers a read
    ([ETIMEDOUT]). *)
Definition deaf_bus : Bus :=
  {| bus_scan := fun _ => inr [54];
     bus_writeto := fun _ _ _ => inr 1;
     bus_readfrom := fun _ _ _ => inl (OSError 110) |}.

(** ** Bytes and decoding *)

Lemma byte_val_range (b : byte) : 0 <= byte_val b < 256.
Proof.
  unfold byte_val. pose proof (Byte.to_N_bounded b). lia.
Qed.

Lemma sign_of_spec (b : byte) :
  sign_of b = if byte_val b <? 128 then 0 else -1.
Proof. destruct b; reflexivity. Qed.

Lemma small_bits_above (v n : Z) :
  0 <= v < 256 -> 8 <= n -> Z.testbit v n = false.
Proof.
  intros Hv Hn.
  destruct (Z.eq_dec v 0) as [-> | Hnz].
  - apply Z.testbit_0_l.
  - apply Z.bits_above_log2; [lia |].
    assert (Z.log2 v < 8); [| lia].
    apply Z.log2_lt_pow2; [lia | change (2 ^ 8) with 256; lia].
Qed.

Lemma take_in_arith (acc : Z) (b : byte) :
  take_in acc b = acc * 256 + byte_val b.
Proof.
  unfold take_in.
  pose proof (byte_val_range b) as Hb.
  rewrite Z.shiftl_mul_pow2 by lia. change (2 ^ 8) with 256.
  assert (Hdisj : Z.land (acc * 256) (byte_val b) = 0).
  { apply Z.bits_inj'. intros n Hn.
    rewrite Z.land_spec, Z.bits_0.
    destruct (Z_lt_le_dec n 8) as [Hlt | Hge].
    - change 256 with (2 ^ 8). rewrite Z.mul_pow2_bits_low by lia. reflexivity.
    - rewrite (small_bits_above (byte_val b) n) by lia. apply andb_false_r. }
  rewrite <- Z.lxor_lor by exact Hdisj.
  symmetry. apply Z.add_nocarry_lxor. exact Hdisj.
Qed.

Lemma unpack_be_l_arith (b0 b1 b2 b3 : byte) :
  unpack_be_l [b0; b1; b2; b3] =
  inr (if be_u32 b0 b1 b2 b3 <? 2 ^ 31
       then be_u32 b0 b1 b2 b3 else be_u32 b0 b1 b2 b3 - 2 ^ 32).
Proof.
  unfold unpack_be_l. cbn [fold_left].
  rewrite !take_in_arith, sign_of_spec. unfold be_u32.
  pose proof (byte_val_range b0). pose proof (byte_val_range b1).
  pose proof (byte_val_range b2). pose proof (byte_val_range b3).
  change (2 ^ 24) with 16777216. change (2 ^ 16) with 65536.
  change (2 ^ 8) with 256. change (2 ^ 31) with 2147483648.
  change (2 ^ 32) with 4294967296.
  f_equal.
  destruct (byte_val b0 <? 128) eqn:E0;
    [apply Z.ltb_lt in E0 | apply Z.ltb_ge in E0].
  - destruct (Z.ltb_spec
      (byte_val b0 * 16777216 + byte_val b1 * 65536 + byte_val b2 * 256 + byte_val b3)
      2147483648); lia.
  - destruct (Z.ltb_spec
      (byte_val b0 * 16777216 + byte_val b1 * 65536 + byte_val b2 * 256 + byte_val b3)
      2147483648); lia.
Qed.

Lemma fill_length (buf data : list byte) :
  List.length (fill buf data) = List.length buf.
Proof.
  revert data. induction buf as [| b buf IH]; intros [| d data]; simpl; auto.
Qed.

Lemma bytearray_length (n : nat) : List.length (bytearray n) = n.
Proof. apply repeat_length. Qed.

(** ** How the methods run *)

Lemma trace_snoc2 (t : Trace) (a b : Event) : (t ++ [a]) ++ [b] = t ++ [a; b].
Proof. rewrite <- app_assoc. reflexivity. Qed.

Lemma i2c_write_unset (bus : Bus) (cdata : list byte) (m : Machine) :
  devno (self m) = 0 ->
  i2c_write bus cdata m = (inl (Exception no_device_msg), m).
Proof.
  intros H0. unfold i2c_write, bind, get_self. rewrite H0. reflexivity.
Qed.

Lemma i2c_write_set (bus : Bus) (cdata : list byte) (m : Machine) :
  devno (self m) <> 0 ->
  i2c_write bus cdata m =
  (bus_writeto bus (trace m) (devno (self m)) cdata,
   record (EvWrite (devno (self m)) cdata) m).
Proof.
  intros Hd. unfold i2c_write, bind, get_self.
  apply Z.eqb_neq in Hd. rewrite Hd.
  unfold writeto, ret.
  destruct (bus_writeto bus (trace m) (devno (self m)) cdata); reflexivity.
Qed.

Lemma i2c_read_unset (bus : Bus) (cdata : list byte) (dsize : nat) (m : Machine) :
  devno (self m) = 0 ->
  i2c_read bus cdata dsize m = (inl (Exception no_device_msg), m).
Proof.
  intros H0. unfold i2c_read, bind. rewrite i2c_write_unset by exact H0.
  reflexivity.
Qed.

Lemma i2c_read_run (bus : Bus) (cdata : list byte) (dsize : nat) (m : Machine)
      (nsent : Z) (data : list byte) :
  devno (self m) <> 0 ->
  bus_writeto bus (trace m) (devno (self m)) cdata = inr nsent ->
  bus_readfrom bus (trace m ++ [EvWrite (devno (self m)) cdata; EvSleep 8])
               (devno (self m)) dsize = inr data ->
  i2c_read bus cdata dsize m =
  (inr (fill (bytearray dsize) data),
   {| self := self m;
      trace := trace m ++ transaction (devno (self m)) cdata dsize |}).
Proof.
  intros Hd Hw Hr. unfold i2c_read, bind.
  rewrite i2c_write_set by exact Hd. rewrite Hw.
  unfold sleep_ms, get_self, readfrom_into, ret, record. cbn [self trace].
  rewrite bytearray_length, trace_snoc2, Hr, <- app_assoc.
  reflexivity.
Qed.

Lemma i2c_read_answers (bus : Bus) (cdata : list byte) (m : Machine)
      (b0 b1 b2 b3 : byte) :
  answers bus m cdata [b0; b1; b2; b3] ->
  i2c_read bus cdata 4 m =
  (inr [b0; b1; b2; b3],
   {| self := self m; trace := trace m ++ transaction (devno (self m)) cdata 4 |}).
Proof.
  intros (Hd & (nsent & Hw) & Hr).
  rewrite (i2c_read_run bus cdata 4 m nsent [b0; b1; b2; b3] Hd Hw Hr).
  reflexivity.
Qed.

Lemma position_run (bus : Bus) (m : Machine) (b0 b1 b2 b3 : byte) (delta : Z) :
  answers bus m [CMD_READ_VAL_POS; VAL_DELTA] [b0; b1; b2; b3] ->
  unpack_be_l [b0; b1; b2; b3] = inr delta ->
  position bus m =
  (inr (wrapped (value (self m) - delta) (min_val (self m)) (max_val (self m))),
   {| self := set_value
                (wrapped (value (self m) - delta) (min_val (self m)) (max_val (self m)))
                (self m);
      trace := trace m ++
               transaction (devno (self m)) [CMD_READ_VAL_POS; VAL_DELTA] 4 |}).
Proof.
  intros Ha Hu. unfold position, bind.
  rewrite (i2c_read_answers bus _ m b0 b1 b2 b3 Ha).
  unfold lift. rewrite Hu.
  unfold get_self, put_self, with_self, ret, wrapped. cbn [self trace value min_val max_val set_value].
  destruct (value (self m) - delta <? min_val (self m)); [reflexivity |].
  destruct (value (self m) - delta >? max_val (self m)); reflexivity.
Qed.

Lemma button_run (bus : Bus) (m : Machine) (b0 b1 b2 b3 : byte) :
  answers bus m [CMD_READ_BUTTONS; CMD_READ_NUMBER] [b0; b1; b2; b3] ->
  button bus m =
  (inr (Z.land (byte_val b0) 1 =? 0),
   {| self := self m;
      trace := trace m ++
               transaction (devno (self m)) [CMD_READ_BUTTONS; CMD_READ_NUMBER] 4 |}).
Proof.
  intros Ha. unfold button, bind.
  rewrite (i2c_read_answers bus _ m b0 b1 b2 b3 Ha).
  unfold ret. destruct (Z.land (byte_val b0) 1 =? 0); reflexivity.
Qed.

Lemma answers_scripted_first (reply : list byte) (m : Machine) (cdata : list byte)
      (rest : list (list byte)) :
  devno (self m) <> 0 -> trace m = [] ->
  answers (scripted (reply :: rest)) m cdata reply.
Proof.
  intros Hd Ht. unfold answers. rewrite Ht. repeat split.
  - exact Hd.
  - eexists. reflexivity.
Qed.

(** ** The position counter *)

(** C1 (as amended).  When the bus answers the delta request with four
    bytes decoding to [delta]: if [value - delta < min_val], [position]
    returns and stores [max_val] exactly; if [value - delta > max_val] and
    it is not below [min_val], [position] returns and stores [min_val]
    exactly.  The jump does not depend on the size of the overshoot. *)
Theorem position_jumps_to_opposite_bound
        (bus : Bus) (m : Machine) (b0 b1 b2 b3 : byte) (delta : Z) :
  answers bus m [CMD_READ_VAL_POS; VAL_DELTA] [b0; b1; b2; b3] ->
  unpack_be_l [b0; b1; b2; b3] = inr delta ->
  (value (self m) - delta < min_val (self m) ->
   returned (position bus m) (max_val (self m)) /\
   stored (position bus m) = max_val (self m)) /\
  (value (self m) - delta > max_val (self m) ->
   min_val (self m) <= value (self m) - delta ->
   returned (position bus m) (min_val (self m)) /\
   stored (position bus m) = min_val (self m)).
Proof.
  intros Ha Hu. rewrite (position_run bus m b0 b1 b2 b3 delta Ha Hu).
  unfold returned, stored, wrapped. cbn [fst snd self value set_value].
  split.
  - intros Hlt. apply Z.ltb_lt in Hlt. rewrite Hlt. split; reflexivity.
  - intros Hgt Hge.
    destruct (Z.ltb_spec (value (self m) - delta) (min_val (self m))); [lia |].
    destruct (Z.gtb_spec (value (self m) - delta) (max_val (self m))); [| lia].
    split; reflexivity.
Qed.

Lemma position_jumps_to_opposite_bound_witness :
  (returned (position (scripted [reply_5]) (encoder 0 10 0 54)) 10 /\
   stored (position (scripted [reply_5]) (encoder 0 10 0 54)) = 10) /\
  (returned (position (scripted [reply_minus_20]) (encoder 0 10 5 54)) 0 /\
   stored (position (scripted [reply_minus_20]) (encoder 0 10 5 54)) = 0).
Proof.
  split.
  - apply (position_jumps_to_opposite_bound
             (scripted [reply_5]) (encoder 0 10 0 54) x00 x00 x00 x05 5).
    + apply answers_scripted_first; [discriminate | reflexivity].
    + reflexivity.
    + reflexivity.
  - apply (position_jumps_to_opposite_bound
             (scripted [reply_minus_20]) (encoder 0 10 5 54) xff xff xff xec (-20)).
    + apply answers_scripted_first; [discriminate | reflexivity].
    + reflexivity.
    + reflexivity.
    + discriminate.
Defined.

(** C1, refuted as stated.  Construct the driver with [min_val = 10] and
    [max_val = 0] (so [value = 10]) and let the reply decode to 5:
    [value - delta = 5 > max_val], yet the first test ([5 < 10]) fires and
    [position] returns [max_val = 0], not [min_val = 10]. *)
Lemma position_overflow_inverted_bounds :
  answers (scripted [reply_5]) (init 16 17 400000 10 0 54)
          [CMD_READ_VAL_POS; VAL_DELTA] reply_5 /\
  unpack_be_l reply_5 = inr 5 /\
  value (self (init 16 17 400000 10 0 54)) - 5
    > max_val (self (init 16 17 400000 10 0 54)) /\
  returned (position (scripted [reply_5]) (init 16 17 400000 10 0 54)) 0 /\
  ~ returned (position (scripted [reply_5]) (init 16 17 400000 10 0 54))
             (min_val (self (init 16 17 400000 10 0 54))).
Proof.
  split; [apply answers_scripted_first; [discriminate | reflexivity] |].
  split; [reflexivity |].
  split; [reflexivity |].
  split; [reflexivity |].
  unfold returned. vm_compute. discriminate.
Qed.

(** C2.  For every four-byte reply, [position] sends the command bytes
    [0x11, 0x40], waits, reads four bytes, decodes them as a two's-complement
    signed big-endian 32-bit integer [delta] (in range, and congruent
    modulo [2^32] to the unsigned big-endian value) and continues from
    [value - delta]: a subtraction.  [0xFF,0xFF,0xFF,0xFE] decodes to -2. *)
Theorem position_decodes_and_subtracts
        (bus : Bus) (m : Machine) (b0 b1 b2 b3 : byte) :
  answers bus m [x11; x40] [b0; b1; b2; b3] ->
  exists delta : Z,
    unpack_be_l [b0; b1; b2; b3] = inr delta /\
    - 2 ^ 31 <= delta < 2 ^ 31 /\
    delta mod 2 ^ 32 = be_u32 b0 b1 b2 b3 /\
    returned (position bus m)
             (wrapped (value (self m) - delta) (min_val (self m)) (max_val (self m))) /\
    stored (position bus m) =
      wrapped (value (self m) - delta) (min_val (self m)) (max_val (self m)) /\
    trace (snd (position bus m)) =
      trace m ++ [EvWrite (devno (self m)) [x11; x40]; EvSleep 8;
                  EvRead (devno (self m)) 4] /\
    unpack_be_l [xff; xff; xff; xfe] = inr (-2).
Proof.
  intros Ha.
  pose proof (unpack_be_l_arith b0 b1 b2 b3) as Hu.
  set (u := be_u32 b0 b1 b2 b3) in *.
  assert (Hrange : 0 <= u < 2 ^ 32).
  { subst u. unfold be_u32.
    pose proof (byte_val_range b0). pose proof (byte_val_range b1).
    pose proof (byte_val_range b2). pose proof (byte_val_range b3).
    change (2 ^ 24) with 16777216. change (2 ^ 16) with 65536.
    change (2 ^ 8) with 256. change (2 ^ 32) with 4294967296. lia. }
  exists (if u <? 2 ^ 31 then u else u - 2 ^ 32).
  rewrite (position_run bus m b0 b1 b2 b3 _ Ha Hu).
  unfold returned, stored. cbn [fst snd self trace value set_value].
  change (2 ^ 31) with 2147483648 in *. change (2 ^ 32) with 4294967296 in *.
  repeat split; try reflexivity; try exact Hu.
  - destruct (Z.ltb_spec u 2147483648); lia.
  - destruct (Z.ltb_spec u 2147483648); lia.
  - destruct (Z.ltb_spec u 2147483648).
    + apply Z.mod_small. lia.
    + symmetry. apply (Z.mod_unique _ _ (-1)); lia.
Qed.

Lemma position_decodes_and_subtracts_witness :
  exists delta : Z,
    unpack_be_l reply_minus_2 = inr delta /\
    - 2 ^ 31 <= delta < 2 ^ 31 /\
    delta mod 2 ^ 32 = be_u32 xff xff xff xfe /\
    returned (position (scripted [reply_minus_2]) (encoder 0 10 5 54))
             (wrapped (5 - delta) 0 10) /\
    stored (position (scripted [reply_minus_2]) (encoder 0 10 5 54)) =
      wrapped (5 - delta) 0 10 /\
    trace (snd (position (scripted [reply_minus_2]) (encoder 0 10 5 54))) =
      [] ++ [EvWrite 54 [x11; x40]; EvSleep 8; EvRead 54 4] /\
    unpack_be_l [xff; xff; xff; xfe] = inr (-2).
Proof.
  apply (position_decodes_and_subtracts
           (scripted [reply_minus_2]) (encoder 0 10 5 54) xff xff xff xfe).
  apply answers_scripted_first; [discriminate | reflexivity].
Defined.

(** C3.  If [min_val <= value - delta <= max_val], [position] returns and
    stores [value - delta] itself; a result equal to either bound is
    therefore kept and not sent to the opposite bound. *)
Theorem position_in_range_passthrough
        (bus : Bus) (m : Machine) (b0 b1 b2 b3 : byte) (delta : Z) :
  answers bus m [CMD_READ_VAL_POS; VAL_DELTA] [b0; b1; b2; b3] ->
  unpack_be_l [b0; b1; b2; b3] = inr delta ->
  min_val (self m) <= value (self m) - delta <= max_val (self m) ->
  returned (position bus m) (value (self m) - delta) /\
  stored (position bus m) = value (self m) - delta.
Proof.
  intros Ha Hu [Hlo Hhi].
  rewrite (position_run bus m b0 b1 b2 b3 delta Ha Hu).
  unfold returned, stored, wrapped. cbn [fst snd self value set_value].
  destruct (Z.ltb_spec (value (self m) - delta) (min_val (self m))); [lia |].
  destruct (Z.gtb_spec (value (self m) - delta) (max_val (self m))); [lia |].
  split; reflexivity.
Qed.

Lemma position_in_range_passthrough_witness :
  (min_val (self (encoder 0 10 5 54)) <= 5 - 5 <= max_val (self (encoder 0 10 5 54))) /\
  returned (position (scripted [reply_5]) (encoder 0 10 5 54)) (5 - 5) /\
  stored (position (scripted [reply_5]) (encoder 0 10 5 54)) = 5 - 5.
Proof.
  split; [split; discriminate |].
  apply (position_in_range_passthrough
           (scripted [reply_5]) (encoder 0 10 5 54) x00 x00 x00 x05 5).
  - apply answers_scripted_first; [discriminate | reflexivity].
  - reflexivity.
  - split; discriminate.
Defined.

(** C4 (as amended).  If [min_val <= max_val], then for every prior state
    of the driver and every four-byte reply the stored value lies in
    [[min_val, max_val]] right after [position], and the bounds are the
    ones the driver had before the call. *)
Theorem position_value_within_bounds
        (bus : Bus) (m : Machine) (b0 b1 b2 b3 : byte) :
  answers bus m [CMD_READ_VAL_POS; VAL_DELTA] [b0; b1; b2; b3] ->
  min_val (self m) <= max_val (self m) ->
  min_val (self (snd (position bus m))) = min_val (self m) /\
  max_val (self (snd (position bus m))) = max_val (self m) /\
  min_val (self m) <= stored (position bus m) <= max_val (self m).
Proof.
  intros Ha Hle.
  rewrite (position_run bus m b0 b1 b2 b3 _ Ha (unpack_be_l_arith b0 b1 b2 b3)).
  unfold stored, wrapped. cbn [fst snd self value min_val max_val set_value].
  split; [reflexivity |]. split; [reflexivity |].
  match goal with
  | |- context [?v <? min_val (self m)] =>
      destruct (Z.ltb_spec v (min_val (self m))); [lia |];
      destruct (Z.gtb_spec v (max_val (self m))); lia
  end.
Qed.

Lemma position_value_within_bounds_witness :
  min_val (self (snd (position (scripted [reply_minus_20]) (encoder 0 10 50 54)))) = 0 /\
  max_val (self (snd (position (scripted [reply_minus_20]) (encoder 0 10 50 54)))) = 10 /\
  0 <= stored (position (scripted [reply_minus_20]) (encoder 0 10 50 54)) <= 10.
Proof.
  apply (position_value_within_bounds
           (scripted [reply_minus_20]) (encoder 0 10 50 54) xff xff xff xec).
  - apply answers_scripted_first; [discriminate | reflexivity].
  - discriminate.
Defined.

(** C4, refuted as stated.  Construct the driver with [min_val = 10] and
    [max_val = 0] and let the reply decode to 5: [position] stores 0, and
    [10 <= 0 <= 0] does not hold. *)
Lemma position_value_outside_inverted_bounds :
  answers (scripted [reply_5]) (init 16 17 400000 10 0 54)
          [CMD_READ_VAL_POS; VAL_DELTA] reply_5 /\
  stored (position (scripted [reply_5]) (init 16 17 400000 10 0 54)) = 0 /\
  min_val (self (snd (position (scripted [reply_5]) (init 16 17 400000 10 0 54)))) = 10 /\
  max_val (self (snd (position (scripted [reply_5]) (init 16 17 400000 10 0 54)))) = 0 /\
  ~ (min_val (self (snd (position (scripted [reply_5]) (init 16 17 400000 10 0 54))))
     <= stored (position (scripted [reply_5]) (init 16 17 400000 10 0 54))
     <= max_val (self (snd (position (scripted [reply_5]) (init 16 17 400000 10 0 54))))).
Proof.
  split; [apply answers_scripted_first; [discriminate | reflexivity] |].
  split; [reflexivity |]. split; [reflexivity |]. split; [reflexivity |].
  vm_compute. intros [H _]. apply H. reflexivity.
Qed.

(** ** The guard on the device number *)

(** C5 (as amended).  With [devno = 0], for every byte sequence and reply
    size, [i2c_write] and [i2c_read] both raise the exception of
    [i2c_write], whose message names [i2c_write] (also when raised through
    [i2c_read]), and nothing happens on the bus: the record of writes,
    delays and reads is what it was. *)
Theorem unset_device_guard
        (bus : Bus) (cdata : list byte) (dsize : nat) (m : Machine) :
  devno (self m) = 0 ->
  (fst (i2c_write bus cdata m) = inl (Exception no_device_msg) /\
   trace (snd (i2c_write bus cdata m)) = trace m) /\
  (fst (i2c_read bus cdata dsize m) = inl (Exception no_device_msg) /\
   trace (snd (i2c_read bus cdata dsize m)) = trace m) /\
  String.index 0 "rotary_i2c.i2c_write()" no_device_msg = Some 7%nat.
Proof.
  intros H0.
  rewrite (i2c_write_unset bus cdata m H0), (i2c_read_unset bus cdata dsize m H0).
  repeat split; reflexivity.
Qed.

Lemma unset_device_guard_witness :
  (fst (i2c_write (scripted [reply_0]) [x11; x40] (encoder 0 10 0 0))
     = inl (Exception no_device_msg) /\
   trace (snd (i2c_write (scripted [reply_0]) [x11; x40] (encoder 0 10 0 0))) = []) /\
  (fst (i2c_read (scripted [reply_0]) [x11; x40] 4 (encoder 0 10 0 0))
     = inl (Exception no_device_msg) /\
   trace (snd (i2c_read (scripted [reply_0]) [x11; x40] 4 (encoder 0 10 0 0))) = []) /\
  String.index 0 "rotary_i2c.i2c_write()" no_device_msg = Some 7%nat.
Proof.
  apply (unset_device_guard (scripted [reply_0]) [x11; x40] 4 (encoder 0 10 0 0)).
  reflexivity.
Defined.

(** C5, refuted as stated.  Called with no device set, [i2c_read] raises an
    exception whose message names [i2c_write]; [i2c_read] occurs nowhere in
    it. *)
Lemma i2c_read_error_does_not_name_i2c_read :
  devno (self (encoder 0 10 0 0)) = 0 /\
  exists msg : string,
    fst (i2c_read (scripted [reply_0]) [x11; x40] 4 (encoder 0 10 0 0))
      = inl (Exception msg) /\
    String.index 0 "i2c_read" msg = None /\
    String.index 0 "read" msg = None.
Proof.
  split; [reflexivity |].
  exists no_device_msg. repeat split; reflexivity.
Qed.

(** C9.  When [i2c_write] or [i2c_read] raises because [devno] is 0, the
    driver is exactly as before the call: every field ([value], [min_val],
    [max_val], [devno], the pins, the frequency, the transport handle) is
    unchanged. *)
Theorem config_error_is_atomic
        (bus : Bus) (cdata : list byte) (dsize : nat) (m : Machine) :
  devno (self m) = 0 ->
  (fst (i2c_write bus cdata m) = inl (Exception no_device_msg) /\
   self (snd (i2c_write bus cdata m)) = self m) /\
  (fst (i2c_read bus cdata dsize m) = inl (Exception no_device_msg) /\
   self (snd (i2c_read bus cdata dsize m)) = self m).
Proof.
  intros H0.
  rewrite (i2c_write_unset bus cdata m H0), (i2c_read_unset bus cdata dsize m H0).
  repeat split; reflexivity.
Qed.

Lemma config_error_is_atomic_witness :
  (fst (i2c_write (scripted [reply_5]) [x01; x04] (encoder 0 10 7 0))
     = inl (Exception no_device_msg) /\
   self (snd (i2c_write (scripted [reply_5]) [x01; x04] (encoder 0 10 7 0)))
     = self (encoder 0 10 7 0)) /\
  (fst (i2c_read (scripted [reply_5]) [x01; x04] 4 (encoder 0 10 7 0))
     = inl (Exception no_device_msg) /\
   self (snd (i2c_read (scripted [reply_5]) [x01; x04] 4 (encoder 0 10 7 0)))
     = self (encoder 0 10 7 0)).
Proof.
  apply (config_error_is_atomic (scripted [reply_5]) [x01; x04] 4 (encoder 0 10 7 0)).
  reflexivity.
Defined.

(** ** Transactions *)

(** C7.  With a device set and a transport that does not fail, [i2c_read]
    does exactly this, for every command and every reply size: it writes
    the command to [devno], waits 8 ms, reads [dsize] bytes from [devno]
    into a new zeroed buffer, and returns that buffer, whose length is
    [dsize].  The driver's fields are untouched. *)
Theorem i2c_read_transaction
        (bus : Bus) (cdata : list byte) (dsize : nat) (m : Machine)
        (nsent : Z) (data : list byte) :
  devno (self m) <> 0 ->
  bus_writeto bus (trace m) (devno (self m)) cdata = inr nsent ->
  bus_readfrom bus (trace m ++ [EvWrite (devno (self m)) cdata; EvSleep 8])
               (devno (self m)) dsize = inr data ->
  exists reply : list byte,
    fst (i2c_read bus cdata dsize m) = inr reply /\
    reply = fill (bytearray dsize) data /\
    List.length reply = dsize /\
    trace (snd (i2c_read bus cdata dsize m)) =
      trace m ++ [EvWrite (devno (self m)) cdata; EvSleep 8;
                  EvRead (devno (self m)) dsize] /\
    self (snd (i2c_read bus cdata dsize m)) = self m.
Proof.
  intros Hd Hw Hr.
  rewrite (i2c_read_run bus cdata dsize m nsent data Hd Hw Hr).
  exists (fill (bytearray dsize) data). cbn [fst snd self trace].
  repeat split; try reflexivity.
  rewrite fill_length. apply bytearray_length.
Qed.

Lemma i2c_read_transaction_witness :
  exists reply : list byte,
    fst (i2c_read (scripted [reply_8]) [x11; x40] 6 (encoder 0 10 0 54)) = inr reply /\
    reply = fill (bytearray 6) reply_8 /\
    List.length reply = 6%nat /\
    trace (snd (i2c_read (scripted [reply_8]) [x11; x40] 6 (encoder 0 10 0 54))) =
      [] ++ [EvWrite 54 [x11; x40]; EvSleep 8; EvRead 54 6] /\
    self (snd (i2c_read (scripted [reply_8]) [x11; x40] 6 (encoder 0 10 0 54)))
      = self (encoder 0 10 0 54).
Proof.
  apply (i2c_read_transaction
           (scripted [reply_8]) [x11; x40] 6 (encoder 0 10 0 54) 2 reply_8).
  - discriminate.
  - reflexivity.
  - reflexivity.
Defined.

(** ** The button *)

Lemma bit0_clear (b : byte) :
  (Z.land (byte_val b) 1 =? 0) = negb (Z.testbit (byte_val b) 0).
Proof. destruct b; reflexivity. Qed.

(** C6.  For every four-byte reply, [button] sends the command bytes
    [0x01, 0x04], waits, reads four bytes and returns [true] exactly when
    bit 0 of the first reply byte is clear; the result is a function of
    that bit alone, so the other bits and the other three bytes do not
    count. *)
Theorem button_decodes_bit0
        (bus : Bus) (m : Machine) (b0 b1 b2 b3 : byte) :
  answers bus m [x01; x04] [b0; b1; b2; b3] ->
  returned (button bus m) (negb (Z.testbit (byte_val b0) 0)) /\
  (returned (button bus m) true <-> Z.land (byte_val b0) 1 = 0) /\
  (returned (button bus m) false <-> Z.land (byte_val b0) 1 <> 0) /\
  trace (snd (button bus m)) =
    trace m ++ [EvWrite (devno (self m)) [x01; x04]; EvSleep 8;
                EvRead (devno (self m)) 4].
Proof.
  intros Ha. rewrite (button_run bus m b0 b1 b2 b3 Ha).
  unfold returned. cbn [fst snd trace].
  split; [rewrite bit0_clear; reflexivity |].
  split; [| split; [| reflexivity]].
  - destruct (Z.eqb_spec (Z.land (byte_val b0) 1) 0) as [E | E]; split; intros H;
      try reflexivity; try assumption; try discriminate; contradiction.
  - destruct (Z.eqb_spec (Z.land (byte_val b0) 1) 0) as [E | E]; split; intros H;
      try reflexivity; try assumption; try discriminate; contradiction.
Qed.

Lemma button_decodes_bit0_witness :
  (returned (button (scripted [[xfe; xff; x12; x80]]) (encoder 0 10 0 54)) true /\
   returned (button (scripted [[x01; x00; x00; x00]]) (encoder 0 10 0 54)) false) /\
  trace (snd (button (scripted [[xfe; xff; x12; x80]]) (encoder 0 10 0 54))) =
    [] ++ [EvWrite 54 [x01; x04]; EvSleep 8; EvRead 54 4].
Proof.
  assert (Hfe : answers (scripted [[xfe; xff; x12; x80]]) (encoder 0 10 0 54)
                        [x01; x04] [xfe; xff; x12; x80])
    by (apply answers_scripted_first; [discriminate | reflexivity]).
  assert (H01 : answers (scripted [[x01; x00; x00; x00]]) (encoder 0 10 0 54)
                        [x01; x04] [x01; x00; x00; x00])
    by (apply answers_scripted_first; [discriminate | reflexivity]).
  destruct (button_decodes_bit0 _ _ xfe xff x12 x80 Hfe) as (Ht & _ & _ & Htr).
  destruct (button_decodes_bit0 _ _ x01 x00 x00 x00 H01) as (Hf & _).
  split; [split; [exact Ht | exact Hf] | exact Htr].
Defined.

(** ** What the methods leave alone *)

Lemma i2c_write_self (bus : Bus) (cdata : list byte) (m : Machine) :
  self (snd (i2c_write bus cdata m)) = self m.
Proof.
  destruct (Z.eq_dec (devno (self m)) 0) as [H0 | Hd].
  - rewrite i2c_write_unset by exact H0. reflexivity.
  - rewrite i2c_write_set by exact Hd. reflexivity.
Qed.

Lemma i2c_read_self (bus : Bus) (cdata : list byte) (dsize : nat) (m : Machine) :
  self (snd (i2c_read bus cdata dsize m)) = self m.
Proof.
  destruct (Z.eq_dec (devno (self m)) 0) as [H0 | Hd].
  - rewrite i2c_read_unset by exact H0. reflexivity.
  - unfold i2c_read, bind. rewrite i2c_write_set by exact Hd.
    destruct (bus_writeto bus (trace m) (devno (self m)) cdata); [reflexivity |].
    unfold sleep_ms, get_self, readfrom_into, ret. cbn [self trace record].
    match goal with
    | |- context [bus_readfrom ?b ?t ?a ?n] => destruct (bus_readfrom b t a n)
    end; reflexivity.
Qed.

(** C10.  For every state of the driver and whatever the bus answers,
    [button] leaves every field of the driver as it was, [value],
    [min_val], [max_val] and [devno] among them; and of the other methods
    none but [position] changes [value]. *)
Theorem button_leaves_driver_unchanged
        (bus : Bus) (m : Machine) (cdata : list byte) (dsize : nat) (d : Z) :
  self (snd (button bus m)) = self m /\
  value (self (snd (scan bus m))) = value (self m) /\
  value (self (snd (set_device d m))) = value (self m) /\
  value (self (snd (i2c_write bus cdata m))) = value (self m) /\
  value (self (snd (i2c_read bus cdata dsize m))) = value (self m).
Proof.
  split; [| split; [reflexivity | split; [reflexivity | split]]].
  - unfold button, bind.
    pose proof (i2c_read_self bus [CMD_READ_BUTTONS; CMD_READ_NUMBER] 4 m) as Hs.
    destruct (i2c_read bus [CMD_READ_BUTTONS; CMD_READ_NUMBER] 4 m) as [[e | reply] m'].
    + exact Hs.
    + cbn [snd] in Hs. destruct reply as [| byte0 rest]; [exact Hs |].
      destruct (Z.land (byte_val byte0) 1 =? 0); exact Hs.
  - rewrite i2c_write_self. reflexivity.
  - rewrite i2c_read_self. reflexivity.
Qed.

(** ** A worked scenario *)

(** C8.  From [value = 0], [min_val = 0], [max_val = 10], two [position]
    calls whose replies decode to 5 and then to 8 return 10 (0 - 5 is
    below [min_val]) and then 2 (10 - 8 is in range). *)
Theorem two_reads_scenario (sda scl fr dev : Z) :
  dev <> 0 ->
  unpack_be_l reply_5 = inr 5 /\
  unpack_be_l reply_8 = inr 8 /\
  value (self (init sda scl fr 0 10 dev)) = 0 /\
  returned (position (scripted [reply_5; reply_8]) (init sda scl fr 0 10 dev)) 10 /\
  returned (position (scripted [reply_5; reply_8])
              (snd (position (scripted [reply_5; reply_8])
                             (init sda scl fr 0 10 dev)))) 2.
Proof.
  intros Hd.
  split; [reflexivity |]. split; [reflexivity |]. split; [reflexivity |].
  assert (H1 : position (scripted [reply_5; reply_8]) (init sda scl fr 0 10 dev) =
               (inr 10,
                {| self := set_value 10 (self (init sda scl fr 0 10 dev));
                   trace := transaction dev [CMD_READ_VAL_POS; VAL_DELTA] 4 |})).
  { rewrite (position_run _ _ x00 x00 x00 x05 5);
      [reflexivity
      | apply answers_scripted_first; [exact Hd | reflexivity]
      | reflexivity]. }
  rewrite H1. cbn [snd]. split; [reflexivity |].
  rewrite (position_run _ _ x00 x00 x00 x08 8); [reflexivity | | reflexivity].
  unfold answers. cbn [self trace devno set_value init].
  repeat split; [exact Hd | eexists; reflexivity].
Qed.

Lemma two_reads_scenario_witness :
  unpack_be_l reply_5 = inr 5 /\
  unpack_be_l reply_8 = inr 8 /\
  value (self (init 16 17 400000 0 10 54)) = 0 /\
  returned (position (scripted [reply_5; reply_8]) (init 16 17 400000 0 10 54)) 10 /\
  returned (position (scripted [reply_5; reply_8])
              (snd (position (scripted [reply_5; reply_8])
                             (init 16 17 400000 0 10 54)))) 2.
Proof.
  apply (two_reads_scenario 16 17 400000 54). discriminate.
Defined.

(** ** Every way a transaction can go *)

Lemma i2c_read_write_fails (bus : Bus) (cdata : list byte) (dsize : nat)
      (m : Machine) (e : exn) :
  devno (self m) <> 0 ->
  bus_writeto bus (trace m) (devno (self m)) cdata = inl e ->
  i2c_read bus cdata dsize m = (inl e, record (EvWrite (devno (self m)) cdata) m).
Proof.
  intros Hd Hw. unfold i2c_read, bind.
  rewrite i2c_write_set by exact Hd. rewrite Hw. reflexivity.
Qed.

Lemma i2c_read_read_fails (bus : Bus) (cdata : list byte) (dsize : nat)
      (m : Machine) (nsent : Z) (e : exn) :
  devno (self m) <> 0 ->
  bus_writeto bus (trace m) (devno (self m)) cdata = inr nsent ->
  bus_readfrom bus (trace m ++ [EvWrite (devno (self m)) cdata; EvSleep 8])
               (devno (self m)) dsize = inl e ->
  i2c_read bus cdata dsize m =
  (inl e,
   {| self := self m;
      trace := trace m ++ transaction (devno (self m)) cdata dsize |}).
Proof.
  intros Hd Hw Hr. unfold i2c_read, bind.
  rewrite i2c_write_set by exact Hd. rewrite Hw.
  unfold sleep_ms, get_self, readfrom_into, ret, record. cbn [self trace].
  rewrite bytearray_length, trace_snoc2, Hr, <- app_assoc.
  reflexivity.
Qed.

(** The four outcomes of [i2c_read]. *)
Lemma i2c_read_cases (bus : Bus) (cdata : list byte) (dsize : nat) (m : Machine) :
  (devno (self m) = 0 /\
   i2c_read bus cdata dsize m = (inl (Exception no_device_msg), m))
  \/
  (devno (self m) <> 0 /\
   exists e,
     bus_writeto bus (trace m) (devno (self m)) cdata = inl e /\
     i2c_read bus cdata dsize m =
       (inl e, record (EvWrite (devno (self m)) cdata) m))
  \/
  (devno (self m) <> 0 /\
   exists e,
     bus_readfrom bus (trace m ++ [EvWrite (devno (self m)) cdata; EvSleep 8])
                  (devno (self m)) dsize = inl e /\
     i2c_read bus cdata dsize m =
       (inl e,
        {| self := self m;
           trace := trace m ++ transaction (devno (self m)) cdata dsize |}))
  \/
  (devno (self m) <> 0 /\
   exists data,
     bus_readfrom bus (trace m ++ [EvWrite (devno (self m)) cdata; EvSleep 8])
                  (devno (self m)) dsize = inr data /\
     i2c_read bus cdata dsize m =
       (inr (fill (bytearray dsize) data),
        {| self := self m;
           trace := trace m ++ transaction (devno (self m)) cdata dsize |})).
Proof.
  destruct (Z.eq_dec (devno (self m)) 0) as [H0 | Hd].
  - left. split; [exact H0 | apply i2c_read_unset; exact H0].
  - right.
    destruct (bus_writeto bus (trace m) (devno (self m)) cdata) as [e | nsent] eqn:Hw.
    + left. split; [exact Hd |]. exists e. split; [reflexivity |].
      apply i2c_read_write_fails; assumption.
    + right.
      destruct (bus_readfrom bus (trace m ++ [EvWrite (devno (self m)) cdata; EvSleep 8])
                             (devno (self m)) dsize) as [e | data] eqn:Hr.
      * left. split; [exact Hd |]. exists e. split; [reflexivity |].
        apply (i2c_read_read_fails bus cdata dsize m nsent e); assumption.
      * right. split; [exact Hd |]. exists data. split; [reflexivity |].
        apply (i2c_read_run bus cdata dsize m nsent data); assumption.
Qed.

Lemma i2c_read_reply_length (bus : Bus) (cdata : list byte) (dsize : nat)
      (m : Machine) (reply : list byte) :
  fst (i2c_read bus cdata dsize m) = inr reply -> List.length reply = dsize.
Proof.
  destruct (i2c_read_cases bus cdata dsize m)
    as [[_ E] | [[_ (e & _ & E)] | [[_ (e & _ & E)] | [_ (data & _ & E)]]]];
    rewrite E; cbn [fst]; intros H; try discriminate.
  injection H as <-. rewrite fill_length. apply bytearray_length.
Qed.

Lemma unpack_be_l_four (reply : list byte) :
  List.length reply = 4%nat ->
  exists b0 b1 b2 b3, reply = [b0; b1; b2; b3].
Proof.
  destruct reply as [| b0 [| b1 [| b2 [| b3 [| b4 rest]]]]]; cbn; intros H;
    try discriminate.
  exists b0, b1, b2, b3. reflexivity.
Qed.

(** [position] in terms of the transaction it starts with. *)
Lemma position_via_read (bus : Bus) (m : Machine) :
  position bus m =
  match i2c_read bus [CMD_READ_VAL_POS; VAL_DELTA] 4 m with
  | (inl e, m') => (inl e, m')
  | (inr reply, m') =>
      match unpack_be_l reply with
      | inl e => (inl e, m')
      | inr delta =>
          (inr (wrapped (value (self m') - delta) (min_val (self m')) (max_val (self m'))),
           with_self
             (set_value
                (wrapped (value (self m') - delta) (min_val (self m')) (max_val (self m')))
                (self m'))
             m')
      end
  end.
Proof.
  unfold position, bind.
  destruct (i2c_read bus [CMD_READ_VAL_POS; VAL_DELTA] 4 m) as [[e | reply] m'];
    [reflexivity |].
  unfold lift. destruct (unpack_be_l reply) as [e | delta]; [reflexivity |].
  unfold get_self, put_self, with_self, ret, wrapped.
  cbn [self trace value min_val max_val set_value].
  destruct (value (self m') - delta <? min_val (self m')); [reflexivity |].
  destruct (value (self m') - delta >? max_val (self m')); reflexivity.
Qed.

Lemma button_via_read (bus : Bus) (m : Machine) :
  button bus m =
  match i2c_read bus [CMD_READ_BUTTONS; CMD_READ_NUMBER] 4 m with
  | (inl e, m') => (inl e, m')
  | (inr [], m') => (inl (IndexError "bytearray index out of range"), m')
  | (inr (byte0 :: _), m') => (inr (Z.land (byte_val byte0) 1 =? 0), m')
  end.
Proof.
  unfold button, bind.
  destruct (i2c_read bus [CMD_READ_BUTTONS; CMD_READ_NUMBER] 4 m) as [[e | reply] m'];
    [reflexivity |].
  destruct reply as [| byte0 rest]; [reflexivity |].
  unfold ret. destruct (Z.land (byte_val byte0) 1 =? 0); reflexivity.
Qed.

(** ** Further properties of the driver *)

(** X1.  With no device number set, [position] and [button] raise the
    exception of [i2c_write] and leave the driver and the bus exactly as
    they were: no traffic, no delay, [value] untouched. *)
Theorem position_and_button_need_a_device (bus : Bus) (m : Machine) :
  devno (self m) = 0 ->
  position bus m = (inl (Exception no_device_msg), m) /\
  button bus m = (inl (Exception no_device_msg), m).
Proof.
  intros H0. rewrite position_via_read, button_via_read.
  rewrite !i2c_read_unset by exact H0. split; reflexivity.
Qed.

Lemma position_and_button_need_a_device_witness :
  position (scripted [reply_5]) (init 16 17 400000 0 10 0)
    = (inl (Exception no_device_msg), init 16 17 400000 0 10 0) /\
  button (scripted [reply_5]) (init 16 17 400000 0 10 0)
    = (inl (Exception no_device_msg), init 16 17 400000 0 10 0).
Proof.
  apply (position_and_button_need_a_device
           (scripted [reply_5]) (init 16 17 400000 0 10 0)).
  reflexivity.
Defined.

(** X2.  [set_device d] with [d <> 0] does no I/O and changes the device
    number only; the next [i2c_write] is addressed to [d] and returns what
    the transport answers for [d]. *)
Theorem set_device_selects_target
        (bus : Bus) (m : Machine) (d : Z) (cdata : list byte) :
  d <> 0 ->
  fst (set_device d m) = inr tt /\
  self (snd (set_device d m)) = set_devno d (self m) /\
  trace (snd (set_device d m)) = trace m /\
  fst (i2c_write bus cdata (snd (set_device d m))) = bus_writeto bus (trace m) d cdata /\
  trace (snd (i2c_write bus cdata (snd (set_device d m)))) = trace m ++ [EvWrite d cdata].
Proof.
  intros Hd.
  assert (Hs : set_device d m = (inr tt, with_self (set_devno d (self m)) m))
    by reflexivity.
  rewrite Hs. cbn [fst snd self trace with_self].
  repeat split.
  - rewrite i2c_write_set by exact Hd. reflexivity.
  - rewrite i2c_write_set by exact Hd. reflexivity.
Qed.

Lemma set_device_selects_target_witness :
  fst (set_device 54 (init 16 17 400000 0 10 0)) = inr tt /\
  self (snd (set_device 54 (init 16 17 400000 0 10 0)))
    = set_devno 54 (self (init 16 17 400000 0 10 0)) /\
  trace (snd (set_device 54 (init 16 17 400000 0 10 0))) = [] /\
  fst (i2c_write deaf_bus [x11; x40] (snd (set_device 54 (init 16 17 400000 0 10 0))))
    = bus_writeto deaf_bus [] 54 [x11; x40] /\
  trace (snd (i2c_write deaf_bus [x11; x40]
                        (snd (set_device 54 (init 16 17 400000 0 10 0)))))
    = [] ++ [EvWrite 54 [x11; x40]].
Proof.
  apply (set_device_selects_target deaf_bus (init 16 17 400000 0 10 0) 54 [x11; x40]).
  discriminate.
Defined.

(** X3.  [set_device 0] unsets the device whatever it was: afterwards
    [i2c_write], [i2c_read], [position] and [button] all raise the guard's
    exception and do nothing. *)
Theorem set_device_zero_unsets
        (bus : Bus) (m : Machine) (cdata : list byte) (dsize : nat) :
  i2c_write bus cdata (snd (set_device 0 m))
    = (inl (Exception no_device_msg), snd (set_device 0 m)) /\
  i2c_read bus cdata dsize (snd (set_device 0 m))
    = (inl (Exception no_device_msg), snd (set_device 0 m)) /\
  position bus (snd (set_device 0 m))
    = (inl (Exception no_device_msg), snd (set_device 0 m)) /\
  button bus (snd (set_device 0 m))
    = (inl (Exception no_device_msg), snd (set_device 0 m)).
Proof.
  assert (H0 : devno (self (snd (set_device 0 m))) = 0) by reflexivity.
  split; [apply i2c_write_unset; exact H0 |].
  split; [apply i2c_read_unset; exact H0 |].
  rewrite position_via_read, button_via_read.
  rewrite !i2c_read_unset by exact H0. split; reflexivity.
Qed.

(** X4.  With a device set, [i2c_write] returns the count the transport
    reports, whatever it is: a count different from the number of bytes
    given (a short write) is returned like any other and is no error.  The
    call does one bus write, no delay and no read, and leaves the driver's
    fields alone. *)
Theorem i2c_write_passes_count_through
        (bus : Bus) (cdata : list byte) (m : Machine) (nsent : Z) :
  devno (self m) <> 0 ->
  bus_writeto bus (trace m) (devno (self m)) cdata = inr nsent ->
  fst (i2c_write bus cdata m) = inr nsent /\
  trace (snd (i2c_write bus cdata m)) = trace m ++ [EvWrite (devno (self m)) cdata] /\
  self (snd (i2c_write bus cdata m)) = self m.
Proof.
  intros Hd Hw. rewrite i2c_write_set by exact Hd. rewrite Hw.
  repeat split.
Qed.

Lemma i2c_write_passes_count_through_witness :
  Z.of_nat (List.length [x11; x40]) = 2 /\
  fst (i2c_write deaf_bus [x11; x40] (encoder 0 10 0 54)) = inr 1 /\
  trace (snd (i2c_write deaf_bus [x11; x40] (encoder 0 10 0 54)))
    = [] ++ [EvWrite 54 [x11; x40]] /\
  self (snd (i2c_write deaf_bus [x11; x40] (encoder 0 10 0 54)))
    = self (encoder 0 10 0 54).
Proof.
  split; [reflexivity |].
  apply (i2c_write_passes_count_through deaf_bus [x11; x40] (encoder 0 10 0 54) 1).
  - discriminate.
  - reflexivity.
Defined.

(** X5.  If the transport raises on the command write, [i2c_read] raises
    the same exception at once: the attempted write is the only thing that
    happened, there is no delay and no read, and the driver's fields are
    unchanged. *)
Theorem i2c_read_stops_after_failed_write
        (bus : Bus) (cdata : list byte) (dsize : nat) (m : Machine) (e : exn) :
  devno (self m) <> 0 ->
  bus_writeto bus (trace m) (devno (self m)) cdata = inl e ->
  fst (i2c_read bus cdata dsize m) = inl e /\
  trace (snd (i2c_read bus cdata dsize m)) = trace m ++ [EvWrite (devno (self m)) cdata] /\
  self (snd (i2c_read bus cdata dsize m)) = self m.
Proof.
  intros Hd Hw. rewrite (i2c_read_write_fails bus cdata dsize m e Hd Hw).
  repeat split.
Qed.

Lemma i2c_read_stops_after_failed_write_witness :
  fst (i2c_read nack_bus [x01; x04] 4 (encoder 0 10 3 54)) = inl (OSError 5) /\
  trace (snd (i2c_read nack_bus [x01; x04] 4 (encoder 0 10 3 54)))
    = [] ++ [EvWrite 54 [x01; x04]] /\
  self (snd (i2c_read nack_bus [x01; x04] 4 (encoder 0 10 3 54)))
    = self (encoder 0 10 3 54).
Proof.
  apply (i2c_read_stops_after_failed_write
           nack_bus [x01; x04] 4 (encoder 0 10 3 54) (OSError 5)).
  - discriminate.
  - reflexivity.
Defined.

(** X6.  If the write is acknowledged and the transport raises on the
    read, [i2c_read] raises that exception after the whole sequence (write,
    8 ms, read attempt), and the driver's fields are unchanged. *)
Theorem i2c_read_failed_read_after_delay
        (bus : Bus) (cdata : list byte) (dsize : nat) (m : Machine)
        (nsent : Z) (e : exn) :
  devno (self m) <> 0 ->
  bus_writeto bus (trace m) (devno (self m)) cdata = inr nsent ->
  bus_readfrom bus (trace m ++ [EvWrite (devno (self m)) cdata; EvSleep 8])
               (devno (self m)) dsize = inl e ->
  fst (i2c_read bus cdata dsize m) = inl e /\
  trace (snd (i2c_read bus cdata dsize m)) =
    trace m ++ [EvWrite (devno (self m)) cdata; EvSleep 8;
                EvRead (devno (self m)) dsize] /\
  self (snd (i2c_read bus cdata dsize m)) = self m.
Proof.
  intros Hd Hw Hr. rewrite (i2c_read_read_fails bus cdata dsize m nsent e Hd Hw Hr).
  repeat split.
Qed.

Lemma i2c_read_failed_read_after_delay_witness :
  fst (i2c_read deaf_bus [x01; x04] 4 (encoder 0 10 3 54)) = inl (OSError 110) /\
  trace (snd (i2c_read deaf_bus [x01; x04] 4 (encoder 0 10 3 54)))
    = [] ++ [EvWrite 54 [x01; x04]; EvSleep 8; EvRead 54 4] /\
  self (snd (i2c_read deaf_bus [x01; x04] 4 (encoder 0 10 3 54)))
    = self (encoder 0 10 3 54).
Proof.
  apply (i2c_read_failed_read_after_delay
           deaf_bus [x01; x04] 4 (encoder 0 10 3 54) 1 (OSError 110)).
  - discriminate.
  - reflexivity.
  - reflexivity.
Defined.

(** ** What [position] and [button] can do, whatever the bus does *)

Lemma be_u32_range (b0 b1 b2 b3 : byte) : 0 <= be_u32 b0 b1 b2 b3 < 4294967296.
Proof.
  unfold be_u32.
  pose proof (byte_val_range b0). pose proof (byte_val_range b1).
  pose proof (byte_val_range b2). pose proof (byte_val_range b3).
  change (2 ^ 24) with 16777216. change (2 ^ 16) with 65536.
  change (2 ^ 8) with 256. lia.
Qed.

Lemma unpack_be_l_range (b0 b1 b2 b3 : byte) (delta : Z) :
  unpack_be_l [b0; b1; b2; b3] = inr delta -> - 2 ^ 31 <= delta < 2 ^ 31.
Proof.
  rewrite unpack_be_l_arith. intros H.
  pose proof (be_u32_range b0 b1 b2 b3) as Hu.
  change (2 ^ 31) with 2147483648 in *. change (2 ^ 32) with 4294967296 in *.
  destruct (Z.ltb_spec (be_u32 b0 b1 b2 b3) 2147483648);
    injection H as H; lia.
Qed.

Lemma read4_success_shape (bus : Bus) (cdata : list byte) (m : Machine)
      (reply : list byte) (m' : Machine) :
  i2c_read bus cdata 4 m = (inr reply, m') ->
  devno (self m) <> 0 /\
  (exists b0 b1 b2 b3, reply = [b0; b1; b2; b3]) /\
  m' = {| self := self m; trace := trace m ++ transaction (devno (self m)) cdata 4 |}.
Proof.
  intros E.
  assert (Hlen : List.length reply = 4%nat)
    by (apply (i2c_read_reply_length bus cdata 4 m); rewrite E; reflexivity).
  destruct (i2c_read_cases bus cdata 4 m)
    as [[_ E'] | [[_ (e & _ & E')] | [[_ (e & _ & E')] | [Hd (data & _ & E')]]]];
    rewrite E' in E; try discriminate.
  injection E as _ <-.
  split; [exact Hd |]. split; [apply unpack_be_l_four; exact Hlen | reflexivity].
Qed.

Lemma read_failure_shape (bus : Bus) (cdata : list byte) (dsize : nat)
      (m : Machine) (e : exn) (m' : Machine) :
  i2c_read bus cdata dsize m = (inl e, m') ->
  self m' = self m /\
  ((devno (self m) = 0 /\ e = Exception no_device_msg) \/
   (devno (self m) <> 0 /\
    (bus_writeto bus (trace m) (devno (self m)) cdata = inl e \/
     bus_readfrom bus (trace m ++ [EvWrite (devno (self m)) cdata; EvSleep 8])
                  (devno (self m)) dsize = inl e))).
Proof.
  intros E.
  destruct (i2c_read_cases bus cdata dsize m)
    as [[H0 E'] | [[Hd (e' & Hw & E')] | [[Hd (e' & Hr & E')] | [Hd (data & _ & E')]]]];
    rewrite E' in E; try discriminate; injection E as <- <-.
  - split; [reflexivity |]. left. split; [exact H0 | reflexivity].
  - split; [reflexivity |]. right. split; [exact Hd |]. left. exact Hw.
  - split; [reflexivity |]. right. split; [exact Hd |]. right. exact Hr.
Qed.

(** X7.  [position] raises nothing of its own making: if it raises, the
    exception is the guard's (and the device number is 0) or the very
    exception the transport raised on the write or on the read; the four
    reply bytes always decode.  In every such case the driver's fields,
    [value] among them, are what they were. *)
Theorem position_raises_only_guard_or_transport
        (bus : Bus) (m : Machine) (e : exn) :
  fst (position bus m) = inl e ->
  self (snd (position bus m)) = self m /\
  ((devno (self m) = 0 /\ e = Exception no_device_msg) \/
   (devno (self m) <> 0 /\
    (bus_writeto bus (trace m) (devno (self m)) [x11; x40] = inl e \/
     bus_readfrom bus (trace m ++ [EvWrite (devno (self m)) [x11; x40]; EvSleep 8])
                  (devno (self m)) 4 = inl e))).
Proof.
  rewrite position_via_read.
  destruct (i2c_read bus [CMD_READ_VAL_POS; VAL_DELTA] 4 m) as [[e' | reply] m'] eqn:E.
  - cbn [fst snd]. intros H. injection H as ->.
    exact (read_failure_shape bus _ 4 m e m' E).
  - destruct (read4_success_shape bus _ m reply m' E) as (_ & (b0 & b1 & b2 & b3 & ->) & _).
    rewrite unpack_be_l_arith. cbn [fst]. discriminate.
Qed.

Lemma position_raises_only_guard_or_transport_witness :
  self (snd (position deaf_bus (encoder 0 10 3 54))) = self (encoder 0 10 3 54) /\
  ((devno (self (encoder 0 10 3 54)) = 0 /\ OSError 110 = Exception no_device_msg) \/
   (devno (self (encoder 0 10 3 54)) <> 0 /\
    (bus_writeto deaf_bus (trace (encoder 0 10 3 54))
                 (devno (self (encoder 0 10 3 54))) [x11; x40] = inl (OSError 110) \/
     bus_readfrom deaf_bus
                  (trace (encoder 0 10 3 54)
                     ++ [EvWrite (devno (self (encoder 0 10 3 54))) [x11; x40]; EvSleep 8])
                  (devno (self (encoder 0 10 3 54))) 4 = inl (OSError 110)))).
Proof.
  apply (position_raises_only_guard_or_transport
           deaf_bus (encoder 0 10 3 54) (OSError 110)).
  reflexivity.
Defined.

(** X8.  [button] raises nothing of its own making either: the reply
    buffer is never empty, so an exception is the guard's or the
    transport's, and the driver's fields are what they were. *)
Theorem button_raises_only_guard_or_transport
        (bus : Bus) (m : Machine) (e : exn) :
  fst (button bus m) = inl e ->
  self (snd (button bus m)) = self m /\
  ((devno (self m) = 0 /\ e = Exception no_device_msg) \/
   (devno (self m) <> 0 /\
    (bus_writeto bus (trace m) (devno (self m)) [x01; x04] = inl e \/
     bus_readfrom bus (trace m ++ [EvWrite (devno (self m)) [x01; x04]; EvSleep 8])
                  (devno (self m)) 4 = inl e))).
Proof.
  rewrite button_via_read.
  destruct (i2c_read bus [CMD_READ_BUTTONS; CMD_READ_NUMBER] 4 m) as [[e' | reply] m'] eqn:E.
  - cbn [fst snd]. intros H. injection H as ->.
    exact (read_failure_shape bus _ 4 m e m' E).
  - destruct (read4_success_shape bus _ m reply m' E) as (_ & (b0 & b1 & b2 & b3 & ->) & _).
    cbn [fst]. discriminate.
Qed.

Lemma button_raises_only_guard_or_transport_witness :
  self (snd (button nack_bus (encoder 0 10 3 54))) = self (encoder 0 10 3 54) /\
  ((devno (self (encoder 0 10 3 54)) = 0 /\ OSError 5 = Exception no_device_msg) \/
   (devno (self (encoder 0 10 3 54)) <> 0 /\
    (bus_writeto nack_bus (trace (encoder 0 10 3 54))
                 (devno (self (encoder 0 10 3 54))) [x01; x04] = inl (OSError 5) \/
     bus_readfrom nack_bus
                  (trace (encoder 0 10 3 54)
                     ++ [EvWrite (devno (self (encoder 0 10 3 54))) [x01; x04]; EvSleep 8])
                  (devno (self (encoder 0 10 3 54))) 4 = inl (OSError 5)))).
Proof.
  apply (button_raises_only_guard_or_transport
           nack_bus (encoder 0 10 3 54) (OSError 5)).
  reflexivity.
Defined.

(** X9.  Whenever [position] returns [v], for any bus: [v] is the value
    now stored, no other field of the driver changed, the call made exactly
    one transaction with the device, and [v] is the wrapped
    [value - delta] for a [delta] of 32 signed bits. *)
Theorem position_success_updates_only_value
        (bus : Bus) (m : Machine) (v : Z) :
  fst (position bus m) = inr v ->
  self (snd (position bus m)) = set_value v (self m) /\
  devno (self m) <> 0 /\
  trace (snd (position bus m)) =
    trace m ++ [EvWrite (devno (self m)) [x11; x40]; EvSleep 8;
                EvRead (devno (self m)) 4] /\
  exists delta : Z,
    - 2 ^ 31 <= delta < 2 ^ 31 /\
    v = wrapped (value (self m) - delta) (min_val (self m)) (max_val (self m)).
Proof.
  rewrite position_via_read.
  destruct (i2c_read bus [CMD_READ_VAL_POS; VAL_DELTA] 4 m) as [[e' | reply] m'] eqn:E;
    [cbn [fst]; discriminate |].
  destruct (read4_success_shape bus _ m reply m' E) as (Hd & (b0 & b1 & b2 & b3 & ->) & ->).
  destruct (unpack_be_l [b0; b1; b2; b3]) as [e | delta] eqn:Hu;
    [rewrite unpack_be_l_arith in Hu; discriminate |].
  cbn [fst snd self trace with_self]. intros H. injection H as <-.
  split; [reflexivity |]. split; [exact Hd |]. split; [reflexivity |].
  exists delta. split; [exact (unpack_be_l_range b0 b1 b2 b3 delta Hu) | reflexivity].
Qed.

Lemma position_success_updates_only_value_witness :
  self (snd (position (scripted [reply_minus_2]) (encoder 0 10 5 54)))
    = set_value 7 (self (encoder 0 10 5 54)) /\
  devno (self (encoder 0 10 5 54)) <> 0 /\
  trace (snd (position (scripted [reply_minus_2]) (encoder 0 10 5 54))) =
    [] ++ [EvWrite 54 [x11; x40]; EvSleep 8; EvRead 54 4] /\
  exists delta : Z,
    - 2 ^ 31 <= delta < 2 ^ 31 /\
    7 = wrapped (5 - delta) 0 10.
Proof.
  apply (position_success_updates_only_value
           (scripted [reply_minus_2]) (encoder 0 10 5 54) 7).
  reflexivity.
Defined.

(** ** Invariants of whole sessions *)

Lemma wrapped_in_bounds (v mn mx : Z) : mn <= mx -> mn <= wrapped v mn mx <= mx.
Proof.
  intros Hle. unfold wrapped.
  destruct (Z.ltb_spec v mn); [lia |].
  destruct (Z.gtb_spec v mx); lia.
Qed.

Lemma position_self_cases (bus : Bus) (m : Machine) :
  self (snd (position bus m)) = self m \/
  exists delta : Z,
    self (snd (position bus m)) =
    set_value (wrapped (value (self m) - delta) (min_val (self m)) (max_val (self m)))
              (self m).
Proof.
  rewrite position_via_read.
  pose proof (i2c_read_self bus [CMD_READ_VAL_POS; VAL_DELTA] 4 m) as Hs.
  destruct (i2c_read bus [CMD_READ_VAL_POS; VAL_DELTA] 4 m) as [[e | reply] m'];
    cbn [snd] in Hs.
  - left. exact Hs.
  - destruct (unpack_be_l reply) as [e | delta].
    + left. exact Hs.
    + right. exists delta. cbn [snd self with_self]. rewrite Hs. reflexivity.
Qed.

Lemma button_self (bus : Bus) (m : Machine) : self (snd (button bus m)) = self m.
Proof.
  rewrite button_via_read.
  pose proof (i2c_read_self bus [CMD_READ_BUTTONS; CMD_READ_NUMBER] 4 m) as Hs.
  destruct (i2c_read bus [CMD_READ_BUTTONS; CMD_READ_NUMBER] 4 m) as [[e | reply] m'];
    cbn [snd] in Hs; [exact Hs |].
  destruct reply; exact Hs.
Qed.

Lemma position_trace (bus : Bus) (m : Machine) :
  trace (snd (position bus m)) =
  trace (snd (i2c_read bus [CMD_READ_VAL_POS; VAL_DELTA] 4 m)).
Proof.
  rewrite position_via_read.
  destruct (i2c_read bus [CMD_READ_VAL_POS; VAL_DELTA] 4 m) as [[e | reply] m'];
    [reflexivity |].
  destruct (unpack_be_l reply); reflexivity.
Qed.

Lemma button_trace (bus : Bus) (m : Machine) :
  trace (snd (button bus m)) =
  trace (snd (i2c_read bus [CMD_READ_BUTTONS; CMD_READ_NUMBER] 4 m)).
Proof.
  rewrite button_via_read.
  destruct (i2c_read bus [CMD_READ_BUTTONS; CMD_READ_NUMBER] 4 m) as [[e | reply] m'];
    [reflexivity |].
  destruct reply; reflexivity.
Qed.

Lemma keeps_setup_refl (s : RotaryI2C) : keeps_setup s s.
Proof. unfold keeps_setup. repeat split. Qed.

Lemma keeps_setup_trans (s1 s2 s3 : RotaryI2C) :
  keeps_setup s1 s2 -> keeps_setup s2 s3 -> keeps_setup s1 s3.
Proof.
  unfold keeps_setup.
  intros (A1 & A2 & A3 & A4 & A5 & A6) (B1 & B2 & B3 & B4 & B5 & B6).
  repeat split; congruence.
Qed.

Lemma call_keeps_setup (bus : Bus) (c : Call) (m : Machine) :
  keeps_setup (self m) (self (call bus c m)).
Proof.
  destruct c as [| d | cdata | cdata dsize | |]; cbn [call].
  - apply keeps_setup_refl.
  - unfold keeps_setup. repeat split.
  - rewrite i2c_write_self. apply keeps_setup_refl.
  - rewrite i2c_read_self. apply keeps_setup_refl.
  - destruct (position_self_cases bus m) as [-> | (delta & ->)].
    + apply keeps_setup_refl.
    + unfold keeps_setup. repeat split.
  - rewrite button_self. apply keeps_setup_refl.
Qed.

Lemma call_in_bounds (bus : Bus) (c : Call) (m : Machine) :
  in_bounds (self m) -> in_bounds (self (call bus c m)).
Proof.
  intros Hin.
  destruct c as [| d | cdata | cdata dsize | |]; cbn [call].
  - exact Hin.
  - exact Hin.
  - rewrite i2c_write_self. exact Hin.
  - rewrite i2c_read_self. exact Hin.
  - destruct (position_self_cases bus m) as [-> | (delta & ->)]; [exact Hin |].
    unfold in_bounds in *. cbn [value min_val max_val set_value].
    apply wrapped_in_bounds. lia.
  - rewrite button_self. exact Hin.
Qed.

Lemma session_in_bounds (bus : Bus) (cs : list Call) (m : Machine) :
  in_bounds (self m) ->
  in_bounds (self (session bus cs m)) /\ keeps_setup (self m) (self (session bus cs m)).
Proof.
  revert m. induction cs as [| c cs IH]; intros m Hin.
  - split; [exact Hin | apply keeps_setup_refl].
  - cbn [session fold_left].
    destruct (IH (call bus c m) (call_in_bounds bus c m Hin)) as [H1 H2].
    split; [exact H1 |].
    exact (keeps_setup_trans _ _ _ (call_keeps_setup bus c m) H2).
Qed.

(** X10.  Construct the driver with [min_val <= max_val] and then call its
    methods in any order, any number of times, on any bus, working or
    failing: [value] stays within [[min_val, max_val]] throughout, and the
    bounds, the pins, the frequency and the transport handle never
    change. *)
Theorem session_keeps_value_in_bounds
        (bus : Bus) (cs : list Call) (sda scl fr mn mx dev : Z) :
  mn <= mx ->
  mn <= value (self (session bus cs (init sda scl fr mn mx dev))) <= mx /\
  min_val (self (session bus cs (init sda scl fr mn mx dev))) = mn /\
  max_val (self (session bus cs (init sda scl fr mn mx dev))) = mx /\
  pin_num_sda (self (session bus cs (init sda scl fr mn mx dev))) = sda /\
  pin_num_scl (self (session bus cs (init sda scl fr mn mx dev))) = scl /\
  freq (self (session bus cs (init sda scl fr mn mx dev))) = fr /\
  i2c (self (session bus cs (init sda scl fr mn mx dev)))
    = {| i2c_sda := sda; i2c_scl := scl; i2c_baudrate := fr |}.
Proof.
  intros Hle.
  assert (Hin : in_bounds (self (init sda scl fr mn mx dev)))
    by (unfold in_bounds; cbn; lia).
  destruct (session_in_bounds bus cs _ Hin) as [Hb (K1 & K2 & K3 & K4 & K5 & K6)].
  unfold in_bounds in Hb. rewrite K1, K2 in Hb. cbn in Hb.
  repeat split; try assumption; lia.
Qed.

Lemma session_keeps_value_in_bounds_witness :
  0 <= value (self (session (scripted [reply_5; reply_minus_20; reply_8])
                            [CallPosition; CallSetDevice 54; CallPosition; CallButton;
                             CallScan; CallPosition]
                            (init 16 17 400000 0 10 0))) <= 10 /\
  min_val (self (session (scripted [reply_5; reply_minus_20; reply_8])
                         [CallPosition; CallSetDevice 54; CallPosition; CallButton;
                          CallScan; CallPosition]
                         (init 16 17 400000 0 10 0))) = 0 /\
  max_val (self (session (scripted [reply_5; reply_minus_20; reply_8])
                         [CallPosition; CallSetDevice 54; CallPosition; CallButton;
                          CallScan; CallPosition]
                         (init 16 17 400000 0 10 0))) = 10 /\
  pin_num_sda (self (session (scripted [reply_5; reply_minus_20; reply_8])
                             [CallPosition; CallSetDevice 54; CallPosition; CallButton;
                              CallScan; CallPosition]
                             (init 16 17 400000 0 10 0))) = 16 /\
  pin_num_scl (self (session (scripted [reply_5; reply_minus_20; reply_8])
                             [CallPosition; CallSetDevice 54; CallPosition; CallButton;
                              CallScan; CallPosition]
                             (init 16 17 400000 0 10 0))) = 17 /\
  freq (self (session (scripted [reply_5; reply_minus_20; reply_8])
                      [CallPosition; CallSetDevice 54; CallPosition; CallButton;
                       CallScan; CallPosition]
                      (init 16 17 400000 0 10 0))) = 400000 /\
  i2c (self (session (scripted [reply_5; reply_minus_20; reply_8])
                     [CallPosition; CallSetDevice 54; CallPosition; CallButton;
                      CallScan; CallPosition]
                     (init 16 17 400000 0 10 0)))
    = {| i2c_sda := 16; i2c_scl := 17; i2c_baudrate := 400000 |}.
Proof.
  apply (session_keeps_value_in_bounds
           (scripted [reply_5; reply_minus_20; reply_8])
           [CallPosition; CallSetDevice 54; CallPosition; CallButton;
            CallScan; CallPosition]
           16 17 400000 0 10 0).
  discriminate.
Defined.

Lemma i2c_write_protocol (bus : Bus) (cdata : list byte) (m : Machine) :
  Protocol (trace m) -> Protocol (trace (snd (i2c_write bus cdata m))).
Proof.
  intros Hp. destruct (Z.eq_dec (devno (self m)) 0) as [H0 | Hd].
  - rewrite i2c_write_unset by exact H0. exact Hp.
  - rewrite i2c_write_set by exact Hd. cbn [snd trace record].
    apply Protocol_write; assumption.
Qed.

Lemma i2c_read_protocol (bus : Bus) (cdata : list byte) (dsize : nat) (m : Machine) :
  Protocol (trace m) -> Protocol (trace (snd (i2c_read bus cdata dsize m))).
Proof.
  intros Hp.
  destruct (i2c_read_cases bus cdata dsize m)
    as [[_ E] | [[Hd (e & _ & E)] | [[Hd (e & _ & E)] | [Hd (data & _ & E)]]]];
    rewrite E; cbn [snd trace record].
  - exact Hp.
  - apply Protocol_write; assumption.
  - apply Protocol_transaction; assumption.
  - apply Protocol_transaction; assumption.
Qed.

Lemma call_protocol (bus : Bus) (c : Call) (m : Machine) :
  Protocol (trace m) -> Protocol (trace (call bus c m)).
Proof.
  intros Hp. destruct c as [| d | cdata | cdata dsize | |]; cbn [call].
  - apply Protocol_scan. exact Hp.
  - exact Hp.
  - apply i2c_write_protocol. exact Hp.
  - apply i2c_read_protocol. exact Hp.
  - rewrite position_trace. apply i2c_read_protocol. exact Hp.
  - rewrite button_trace. apply i2c_read_protocol. exact Hp.
Qed.

Lemma session_protocol (bus : Bus) (cs : list Call) (m : Machine) :
  Protocol (trace m) -> Protocol (trace (session bus cs m)).
Proof.
  revert m. induction cs as [| c cs IH]; intros m Hp; [exact Hp |].
  cbn [session fold_left]. apply IH. apply call_protocol. exact Hp.
Qed.

Lemma Protocol_never_zero (t : Trace) :
  Protocol t -> Forall (fun e => addressee e <> Some 0) t.
Proof.
  induction 1 as [| t _ IH | t a cdata Ha _ IH | t a cdata dsize Ha _ IH].
  - constructor.
  - apply Forall_app. split; [exact IH |].
    repeat constructor; cbn; discriminate.
  - apply Forall_app. split; [exact IH |].
    repeat constructor; cbn; congruence.
  - apply Forall_app. split; [exact IH |].
    repeat constructor; cbn; congruence.
Qed.

Lemma Protocol_sleeps (t : Trace) :
  Protocol t -> Forall (fun e => forall ms, e = EvSleep ms -> ms = 8) t.
Proof.
  induction 1 as [| t _ IH | t a cdata Ha _ IH | t a cdata dsize Ha _ IH].
  - constructor.
  - apply Forall_app. split; [exact IH |].
    repeat constructor; intros ms E; discriminate.
  - apply Forall_app. split; [exact IH |].
    repeat constructor; intros ms E; discriminate.
  - apply Forall_app. split; [exact IH |].
    repeat constructor; intros ms E; try discriminate.
    injection E as <-. reflexivity.
Qed.

Lemma snoc_split {A : Type} (t t1 t2 : list A) (x e : A) :
  t ++ [x] = t1 ++ e :: t2 ->
  (t2 = [] /\ t = t1 /\ x = e) \/
  (exists t2', t2 = t2' ++ [x] /\ t = t1 ++ e :: t2').
Proof.
  destruct t2 as [| y t2] using rev_ind; intros H.
  - left. apply app_inj_tail in H. destruct H as [-> ->]. repeat split.
  - right. exists t2.
    change (t1 ++ e :: t2 ++ [y]) with (t1 ++ (e :: t2) ++ [y]) in H.
    rewrite app_assoc in H. apply app_inj_tail in H. destruct H as [-> ->].
    split; reflexivity.
Qed.

Lemma Protocol_read_preceded (t : Trace) :
  Protocol t ->
  forall (t1 t2 : Trace) (a : Z) (n : nat),
    t = t1 ++ EvRead a n :: t2 ->
    a <> 0 /\ exists t0 cdata, t1 = t0 ++ [EvWrite a cdata; EvSleep 8].
Proof.
  induction 1 as [| t _ IH | t a' cdata Ha _ IH | t a' cdata dsize Ha _ IH];
    intros t1 t2 a n E.
  - destruct t1; discriminate.
  - apply snoc_split in E. destruct E as [(_ & _ & E) | (t2' & _ & E)];
      [discriminate | exact (IH _ _ _ _ E)].
  - apply snoc_split in E. destruct E as [(_ & _ & E) | (t2' & _ & E)];
      [discriminate | exact (IH _ _ _ _ E)].
  - unfold transaction in E.
    change (t ++ [EvWrite a' cdata; EvSleep 8; EvRead a' dsize])
      with (t ++ [EvWrite a' cdata; EvSleep 8] ++ [EvRead a' dsize]) in E.
    rewrite app_assoc in E.
    apply snoc_split in E. destruct E as [(_ & E1 & E2) | (t2' & _ & E)].
    + injection E2 as <- <-. split; [exact Ha |].
      exists t, cdata. symmetry. exact E1.
    + change (t ++ [EvWrite a' cdata; EvSleep 8])
        with (t ++ [EvWrite a' cdata] ++ [EvSleep 8]) in E.
      rewrite app_assoc in E.
      apply snoc_split in E. destruct E as [(_ & _ & E) | (t2'' & _ & E)];
        [discriminate |].
      apply snoc_split in E. destruct E as [(_ & _ & E) | (t2''' & _ & E)];
        [discriminate | exact (IH _ _ _ _ E)].
Qed.

(** X11.  Whatever methods are called on a newly constructed driver, in
    whatever order and on whatever bus, the traffic is made only of scans,
    lone writes and whole transactions (write, 8 ms delay, read, to one
    device); nothing is ever addressed to device number 0, and every delay
    is 8 ms. *)
Theorem session_traffic_follows_protocol
        (bus : Bus) (cs : list Call) (sda scl fr mn mx dev : Z) :
  Protocol (trace (session bus cs (init sda scl fr mn mx dev))) /\
  Forall (fun e => addressee e <> Some 0)
         (trace (session bus cs (init sda scl fr mn mx dev))) /\
  Forall (fun e => forall ms, e = EvSleep ms -> ms = 8)
         (trace (session bus cs (init sda scl fr mn mx dev))).
Proof.
  assert (Hp : Protocol (trace (session bus cs (init sda scl fr mn mx dev))))
    by (apply session_protocol; constructor).
  split; [exact Hp |].
  split; [apply Protocol_never_zero | apply Protocol_sleeps]; exact Hp.
Qed.

(** X12.  In the traffic of any session of a newly constructed driver,
    every read from a device comes right after the 8 ms delay, which comes
    right after a write to that same device: the driver never reads
    without having sent a command and waited. *)
Theorem session_reads_follow_write_and_delay
        (bus : Bus) (cs : list Call) (sda scl fr mn mx dev : Z)
        (t1 t2 : Trace) (a : Z) (n : nat) :
  trace (session bus cs (init sda scl fr mn mx dev)) = t1 ++ EvRead a n :: t2 ->
  a <> 0 /\ exists t0 cdata, t1 = t0 ++ [EvWrite a cdata; EvSleep 8].
Proof.
  intros E.
  assert (Hp : Protocol (trace (session bus cs (init sda scl fr mn mx dev))))
    by (apply session_protocol; constructor).
  exact (Protocol_read_preceded _ Hp t1 t2 a n E).
Qed.

Lemma session_reads_follow_write_and_delay_witness :
  54 <> 0 /\
  exists t0 cdata,
    [EvScan; EvWrite 54 [x01; x04]; EvSleep 8] = t0 ++ [EvWrite 54 cdata; EvSleep 8].
Proof.
  apply (session_reads_follow_write_and_delay
           deaf_bus [CallPosition; CallScan; CallSetDevice 54; CallButton; CallWrite [x30]]
           16 17 400000 0 10 0
           [EvScan; EvWrite 54 [x01; x04]; EvSleep 8] [EvWrite 54 [x30]] 54 4).
  reflexivity.
Defined.

(** ** More on the counter *)

Lemma wrapped_in_range (v mn mx : Z) : mn <= v <= mx -> wrapped v mn mx = v.
Proof.
  intros [Hlo Hhi]. unfold wrapped.
  destruct (Z.ltb_spec v mn); [lia |].
  destruct (Z.gtb_spec v mx); [lia | reflexivity].
Qed.

(** X13.  With the bounds the wrong way round ([max_val < min_val]) a
    successful [position] always ends on one of the two bounds: on
    [max_val] when [value - delta < min_val] and on [min_val] otherwise. *)
Theorem position_inverted_bounds_returns_a_bound
        (bus : Bus) (m : Machine) (b0 b1 b2 b3 : byte) (delta : Z) :
  answers bus m [CMD_READ_VAL_POS; VAL_DELTA] [b0; b1; b2; b3] ->
  unpack_be_l [b0; b1; b2; b3] = inr delta ->
  max_val (self m) < min_val (self m) ->
  returned (position bus m)
           (if value (self m) - delta <? min_val (self m)
            then max_val (self m) else min_val (self m)) /\
  (stored (position bus m) = max_val (self m) \/
   stored (position bus m) = min_val (self m)).
Proof.
  intros Ha Hu Hinv. rewrite (position_run bus m b0 b1 b2 b3 delta Ha Hu).
  unfold returned, stored, wrapped. cbn [fst snd self value set_value].
  destruct (Z.ltb_spec (value (self m) - delta) (min_val (self m))).
  - split; [reflexivity | left; reflexivity].
  - destruct (Z.gtb_spec (value (self m) - delta) (max_val (self m))); [| lia].
    split; [reflexivity | right; reflexivity].
Qed.

Lemma position_inverted_bounds_returns_a_bound_witness :
  returned (position (scripted [reply_minus_2]) (init 16 17 400000 10 0 54))
           (if 10 - -2 <? 10 then 0 else 10) /\
  (stored (position (scripted [reply_minus_2]) (init 16 17 400000 10 0 54)) = 0 \/
   stored (position (scripted [reply_minus_2]) (init 16 17 400000 10 0 54)) = 10).
Proof.
  apply (position_inverted_bounds_returns_a_bound
           (scripted [reply_minus_2]) (init 16 17 400000 10 0 54) xff xff xff xfe (-2)).
  - apply answers_scripted_first; [discriminate | reflexivity].
  - reflexivity.
  - reflexivity.
Defined.

(** X14.  With [min_val = max_val] every successful [position] returns and
    stores that one value, whatever the counter was and whatever the four
    reply bytes are. *)
Theorem position_equal_bounds_is_constant
        (bus : Bus) (m : Machine) (b0 b1 b2 b3 : byte) :
  answers bus m [CMD_READ_VAL_POS; VAL_DELTA] [b0; b1; b2; b3] ->
  min_val (self m) = max_val (self m) ->
  returned (position bus m) (min_val (self m)) /\
  stored (position bus m) = min_val (self m).
Proof.
  intros Ha Heq.
  rewrite (position_run bus m b0 b1 b2 b3 _ Ha (unpack_be_l_arith b0 b1 b2 b3)).
  unfold returned, stored. cbn [fst snd self value set_value].
  match goal with
  | |- context [wrapped ?v ?mn ?mx] =>
      assert (Hw : wrapped v mn mx = mn)
        by (pose proof (wrapped_in_bounds v mn mx); lia)
  end.
  rewrite Hw. split; reflexivity.
Qed.

Lemma position_equal_bounds_is_constant_witness :
  returned (position (scripted [reply_minus_20]) (encoder 7 7 100 54)) 7 /\
  stored (position (scripted [reply_minus_20]) (encoder 7 7 100 54)) = 7.
Proof.
  apply (position_equal_bounds_is_constant
           (scripted [reply_minus_20]) (encoder 7 7 100 54) xff xff xff xec).
  - apply answers_scripted_first; [discriminate | reflexivity].
  - reflexivity.
Defined.

(** X15.  Deltas accumulate: if two successive [position] calls get deltas
    [d1] and [d2] and neither intermediate result leaves the bounds, the
    second call returns [value - (d1 + d2)]. *)
Theorem two_positions_accumulate
        (bus : Bus) (m : Machine)
        (a0 a1 a2 a3 : byte) (d1 : Z) (c0 c1 c2 c3 : byte) (d2 : Z) :
  answers bus m [CMD_READ_VAL_POS; VAL_DELTA] [a0; a1; a2; a3] ->
  unpack_be_l [a0; a1; a2; a3] = inr d1 ->
  min_val (self m) <= value (self m) - d1 <= max_val (self m) ->
  answers bus (snd (position bus m)) [CMD_READ_VAL_POS; VAL_DELTA] [c0; c1; c2; c3] ->
  unpack_be_l [c0; c1; c2; c3] = inr d2 ->
  min_val (self m) <= value (self m) - d1 - d2 <= max_val (self m) ->
  returned (position bus (snd (position bus m))) (value (self m) - (d1 + d2)) /\
  stored (position bus (snd (position bus m))) = value (self m) - (d1 + d2).
Proof.
  intros Ha1 Hu1 Hr1 Ha2 Hu2 Hr2.
  rewrite (position_run bus (snd (position bus m)) c0 c1 c2 c3 d2 Ha2 Hu2).
  rewrite (position_run bus m a0 a1 a2 a3 d1 Ha1 Hu1).
  unfold returned, stored. cbn [fst snd self value min_val max_val set_value].
  rewrite (wrapped_in_range _ _ _ Hr1).
  rewrite (wrapped_in_range _ _ _ Hr2).
  replace (value (self m) - d1 - d2) with (value (self m) - (d1 + d2)) by lia.
  split; reflexivity.
Qed.

Lemma two_positions_accumulate_witness :
  returned (position (scripted [reply_5; reply_minus_2])
                     (snd (position (scripted [reply_5; reply_minus_2])
                                    (encoder 0 10 5 54))))
           (5 - (5 + -2)) /\
  stored (position (scripted [reply_5; reply_minus_2])
                   (snd (position (scripted [reply_5; reply_minus_2])
                                  (encoder 0 10 5 54))))
    = 5 - (5 + -2).
Proof.
  apply (two_positions_accumulate
           (scripted [reply_5; reply_minus_2]) (encoder 0 10 5 54)
           x00 x00 x00 x05 5 xff xff xff xfe (-2)).
  - apply answers_scripted_first; [discriminate | reflexivity].
  - reflexivity.
  - split; discriminate.
  - unfold answers. split; [intros H; vm_compute in H; discriminate |].
    split; [eexists; reflexivity | reflexivity].
  - reflexivity.
  - split; discriminate.
Defined.

(** ** More on decoding *)

Lemma byte_val_inj (a b : byte) : byte_val a = byte_val b -> a = b.
Proof.
  unfold byte_val. intros H. apply N2Z.inj in H.
  pose proof (Byte.of_to_N a) as Ha. rewrite H, Byte.of_to_N in Ha.
  injection Ha as ->. reflexivity.
Qed.

Lemma top_bit_spec (b : byte) :
  Z.testbit (byte_val b) 7 = negb (byte_val b <? 128).
Proof. destruct b; reflexivity. Qed.

Lemma be_u32_inj (a0 a1 a2 a3 c0 c1 c2 c3 : byte) :
  be_u32 a0 a1 a2 a3 = be_u32 c0 c1 c2 c3 ->
  [a0; a1; a2; a3] = [c0; c1; c2; c3].
Proof.
  unfold be_u32.
  change (2 ^ 24) with 16777216. change (2 ^ 16) with 65536. change (2 ^ 8) with 256.
  pose proof (byte_val_range a0). pose proof (byte_val_range a1).
  pose proof (byte_val_range a2). pose proof (byte_val_range a3).
  pose proof (byte_val_range c0). pose proof (byte_val_range c1).
  pose proof (byte_val_range c2). pose proof (byte_val_range c3).
  intros E.
  assert (E0 : byte_val a0 = byte_val c0) by lia.
  assert (E1 : byte_val a1 = byte_val c1) by lia.
  assert (E2 : byte_val a2 = byte_val c2) by lia.
  assert (E3 : byte_val a3 = byte_val c3) by lia.
  apply byte_val_inj in E0, E1, E2, E3. subst. reflexivity.
Qed.

(** X16.  Direction and rest.  When the result stays inside the bounds,
    [position] raises the counter exactly when the top bit of the first
    reply byte is set (a negative delta), and leaves it where it was
    exactly when all four reply bytes are zero. *)
Theorem position_direction_from_sign_bit
        (bus : Bus) (m : Machine) (b0 b1 b2 b3 : byte) (delta : Z) :
  answers bus m [CMD_READ_VAL_POS; VAL_DELTA] [b0; b1; b2; b3] ->
  unpack_be_l [b0; b1; b2; b3] = inr delta ->
  min_val (self m) <= value (self m) - delta <= max_val (self m) ->
  (value (self m) < stored (position bus m) <-> Z.testbit (byte_val b0) 7 = true) /\
  (stored (position bus m) = value (self m) <-> [b0; b1; b2; b3] = [x00; x00; x00; x00]).
Proof.
  intros Ha Hu Hr.
  rewrite (position_run bus m b0 b1 b2 b3 delta Ha Hu).
  unfold stored. cbn [snd self value set_value].
  rewrite (wrapped_in_range _ _ _ Hr).
  rewrite unpack_be_l_arith in Hu.
  pose proof (be_u32_range b0 b1 b2 b3) as Hu32.
  change (2 ^ 31) with 2147483648 in Hu. change (2 ^ 32) with 4294967296 in Hu.
  assert (Hdelta : delta = if be_u32 b0 b1 b2 b3 <? 2147483648
                           then be_u32 b0 b1 b2 b3
                           else be_u32 b0 b1 b2 b3 - 4294967296)
    by (injection Hu as Hu; symmetry; exact Hu).
  clear Hu. rename Hdelta into Hu.
  split.
  - rewrite top_bit_spec.
    assert (Htop : byte_val b0 < 128 <-> be_u32 b0 b1 b2 b3 < 2147483648).
    { unfold be_u32.
      change (2 ^ 24) with 16777216. change (2 ^ 16) with 65536.
      change (2 ^ 8) with 256.
      pose proof (byte_val_range b0). pose proof (byte_val_range b1).
      pose proof (byte_val_range b2). pose proof (byte_val_range b3). lia. }
    destruct (Z.ltb_spec (byte_val b0) 128);
      destruct (Z.ltb_spec (be_u32 b0 b1 b2 b3) 2147483648); cbn [negb];
      split; intros; try reflexivity; try discriminate; lia.
  - split.
    + intros Hsame. apply be_u32_inj.
      change (be_u32 x00 x00 x00 x00) with 0.
      destruct (Z.ltb_spec (be_u32 b0 b1 b2 b3) 2147483648); lia.
    + intros E. injection E as -> -> -> ->.
      change (be_u32 x00 x00 x00 x00) with 0 in Hu. cbn in Hu. lia.
Qed.

Lemma position_direction_from_sign_bit_witness :
  (value (self (encoder 0 10 5 54))
     < stored (position (scripted [reply_minus_2]) (encoder 0 10 5 54))
   <-> Z.testbit (byte_val xff) 7 = true) /\
  (stored (position (scripted [reply_minus_2]) (encoder 0 10 5 54))
     = value (self (encoder 0 10 5 54))
   <-> [xff; xff; xff; xfe] = [x00; x00; x00; x00]).
Proof.
  apply (position_direction_from_sign_bit
           (scripted [reply_minus_2]) (encoder 0 10 5 54) xff xff xff xfe (-2)).
  - apply answers_scripted_first; [discriminate | reflexivity].
  - reflexivity.
  - split; discriminate.
Defined.

(** ** From construction to the first reading *)

(** X17.  A driver constructed with the default device number 0 starts
    with [value = min_val] and cannot read: [position] raises the guard's
    exception.  Once [set_device d] has been called with [d <> 0] and the
    device answers, the first [position] returns the wrapped
    [min_val - delta]; for a positive [delta] that is [max_val]. *)
Theorem fresh_driver_first_reading
        (bus : Bus) (sda scl fr mn mx d : Z) (b0 b1 b2 b3 : byte) (delta : Z) :
  d <> 0 ->
  answers bus (snd (set_device d (init sda scl fr mn mx 0)))
          [CMD_READ_VAL_POS; VAL_DELTA] [b0; b1; b2; b3] ->
  unpack_be_l [b0; b1; b2; b3] = inr delta ->
  value (self (init sda scl fr mn mx 0)) = mn /\
  fst (position bus (init sda scl fr mn mx 0)) = inl (Exception no_device_msg) /\
  returned (position bus (snd (set_device d (init sda scl fr mn mx 0))))
           (wrapped (mn - delta) mn mx) /\
  (0 < delta ->
   returned (position bus (snd (set_device d (init sda scl fr mn mx 0)))) mx) /\
  trace (snd (position bus (snd (set_device d (init sda scl fr mn mx 0))))) =
    [EvWrite d [x11; x40]; EvSleep 8; EvRead d 4].
Proof.
  intros Hd Ha Hu.
  split; [reflexivity |].
  split.
  { rewrite position_via_read, i2c_read_unset by reflexivity. reflexivity. }
  rewrite (position_run bus _ b0 b1 b2 b3 delta Ha Hu).
  unfold returned. cbn [fst snd trace].
  split; [reflexivity |]. split; [| reflexivity].
  intros Hpos. cbn. unfold wrapped.
  destruct (Z.ltb_spec (mn - delta) mn); [reflexivity | lia].
Qed.

Lemma fresh_driver_first_reading_witness :
  value (self (init 16 17 400000 0 10 0)) = 0 /\
  fst (position (scripted [reply_5]) (init 16 17 400000 0 10 0))
    = inl (Exception no_device_msg) /\
  returned (position (scripted [reply_5])
                     (snd (set_device 54 (init 16 17 400000 0 10 0))))
           (wrapped (0 - 5) 0 10) /\
  (0 < 5 ->
   returned (position (scripted [reply_5])
                      (snd (set_device 54 (init 16 17 400000 0 10 0)))) 10) /\
  trace (snd (position (scripted [reply_5])
                       (snd (set_device 54 (init 16 17 400000 0 10 0))))) =
    [EvWrite 54 [x11; x40]; EvSleep 8; EvRead 54 4].
Proof.
  apply (fresh_driver_first_reading
           (scripted [reply_5]) 16 17 400000 0 10 54 x00 x00 x00 x05 5).
  - discriminate.
  - apply answers_scripted_first; [discriminate | reflexivity].
  - reflexivity.
Defined.
